(** * Bollinger-band anomaly detection on daily page-view counts

    Shallow embedding of [time_series_anomaly_lesson.ipynb]:
    [one_user_df_prep], [compute_pct_b] and [find_anomalies], together
    with the pandas primitives they call.  [resample('d').count()] is
    written as the binning it performs; [ewm(span=...).mean()] and
    [ewm(span=...).std()] are written as the loops pandas runs for them
    ([ewm] and [ewmcov] of [pandas/_libs/window/aggregations.pyx]) with
    the default arguments [adjust=True], [ignore_na=False], [bias=False].
    The end of the file shows that these loops compute the weighted sums
    of the pandas documentation.

    Numbers.  A float column holds a value of [float]: a real number, one
    of the two infinities, or NaN.  Arithmetic on finite values is exact
    real arithmetic: rounding, overflow and the sign of zero are not
    modelled.  Division by zero and comparisons with NaN follow IEEE 754,
    which is what pandas column arithmetic does.  Inside the window loops
    every divisor is positive once the span is accepted, so the total
    division of [R] is the division of the code. *)

From Stdlib Require Import Reals.Reals Psatz List ZArith Bool.
From Stdlib Require Import Permutation.
From Stdlib Require String.
Import ListNotations.

Open Scope R_scope.

(** ** Float columns *)

Inductive float : Type :=
| NaN
| PInf
| NInf
| Fin (r : R).

Definition Rltb (x y : R) : bool := if Rlt_dec x y then true else false.
Definition Reqb (x y : R) : bool := if Req_dec_T x y then true else false.

Definition fopp (a : float) : float :=
  match a with
  | NaN => NaN
  | PInf => NInf
  | NInf => PInf
  | Fin x => Fin (- x)
  end.

Definition fadd (a b : float) : float :=
  match a, b with
  | NaN, _ | _, NaN => NaN
  | PInf, NInf | NInf, PInf => NaN
  | PInf, _ | _, PInf => PInf
  | NInf, _ | _, NInf => NInf
  | Fin x, Fin y => Fin (x + y)
  end.

Definition fsub (a b : float) : float := fadd a (fopp b).

(** The infinity of the sign of [x], NaN when [x] is zero. *)
Definition inf_of_sign (x : R) : float :=
  if Rltb 0 x then PInf else if Rltb x 0 then NInf else NaN.

Definition fmul (a b : float) : float :=
  match a, b with
  | NaN, _ | _, NaN => NaN
  | PInf, PInf | NInf, NInf => PInf
  | PInf, NInf | NInf, PInf => NInf
  | PInf, Fin y | Fin y, PInf => inf_of_sign y
  | NInf, Fin y | Fin y, NInf => inf_of_sign (- y)
  | Fin x, Fin y => Fin (x * y)
  end.

Definition fdiv (a b : float) : float :=
  match a, b with
  | NaN, _ | _, NaN => NaN
  | (PInf | NInf), (PInf | NInf) => NaN
  | Fin _, (PInf | NInf) => Fin 0
  | PInf, Fin y => if Rltb y 0 then NInf else PInf
  | NInf, Fin y => if Rltb y 0 then PInf else NInf
  | Fin x, Fin y => if Reqb y 0 then inf_of_sign x else Fin (x / y)
  end.

(** [a > b] on floats: false as soon as one side is NaN. *)
Definition fgt (a b : float) : bool :=
  match a, b with
  | NaN, _ | _, NaN => false
  | PInf, PInf => false
  | PInf, _ => true
  | _, PInf => false
  | NInf, _ => false
  | Fin _, NInf => true
  | Fin x, Fin y => Rltb y x
  end.

Definition flt (a b : float) : bool := fgt b a.

(** [a <= b] on floats: false as soon as one side is NaN. *)
Definition fle (a b : float) : bool :=
  match a, b with
  | NaN, _ | _, NaN => false
  | _, _ => negb (fgt a b)
  end.

Definition is_defined (a : float) : Prop := a <> NaN.

(** ** Exceptions *)

Inductive result (A : Type) : Type :=
| Ok (a : A)
| ValueError.
Arguments Ok {A} a.
Arguments ValueError {A}.

Definition bind {A B : Type} (r : result A) (k : A -> result B) : result B :=
  match r with
  | Ok a => k a
  | ValueError => ValueError
  end.

(** ** pandas: exponentially weighted windows

    [Series.ewm(span=span)] checks the span ("span must satisfy:
    span >= 1") and turns it into a centre of mass; the decay factor is
    [alpha = 1 / (1 + com) = 2 / (span + 1)]. *)

Definition get_center_of_mass (span : R) : result R :=
  if Rltb span 1 then ValueError else Ok ((span - 1) / 2).

Module Ewm.

Section Recurrences.

Variable com : R.

Definition alpha : R := 1 / (1 + com).
Definition old_wt_factor : R := 1 - alpha.
(** [adjust=True] *)
Definition new_wt : R := 1.

(** *** [ewm(...).mean()] *)

Record mean_state : Type := MeanState {
  weighted : R;
  m_old_wt : R
}.

Definition mean_init (x0 : R) : mean_state :=
  {| weighted := x0; m_old_wt := 1 |}.

(** One turn of the loop over the observations after the first.  The
    series holds counts, so every value is an observation and the
    branches for missing values are never taken. *)
Definition mean_step (st : mean_state) (cur : R) : mean_state :=
  let old_wt := m_old_wt st * old_wt_factor in
  let weighted' :=
    if Reqb (weighted st) cur then weighted st
    else (old_wt * weighted st + new_wt * cur) / (old_wt + new_wt) in
  {| weighted := weighted'; m_old_wt := old_wt + new_wt |}.

Fixpoint mean_loop (st : mean_state) (xs : list R) : list float :=
  match xs with
  | [] => []
  | cur :: rest =>
      let st' := mean_step st cur in
      Fin (weighted st') :: mean_loop st' rest
  end.

Definition mean (xs : list R) : list float :=
  match xs with
  | [] => []
  | x0 :: rest => Fin x0 :: mean_loop (mean_init x0) rest
  end.

(** *** [ewm(...).var()], which is [ewmcov] of the series with itself,
    and [ewm(...).std()], its square root *)

Record cov_state : Type := CovState {
  mean_x : R;
  cov : R;
  sum_wt : R;
  sum_wt2 : R;
  old_wt : R
}.

Definition cov_init (x0 : R) : cov_state :=
  {| mean_x := x0; cov := 0; sum_wt := 1; sum_wt2 := 1; old_wt := 1 |}.

Definition cov_step (st : cov_state) (cur : R) : cov_state :=
  let sum_wt' := sum_wt st * old_wt_factor in
  let sum_wt2' := sum_wt2 st * (old_wt_factor * old_wt_factor) in
  let old_wt' := old_wt st * old_wt_factor in
  let old_mean := mean_x st in
  let mean' :=
    if Reqb old_mean cur then old_mean
    else (old_wt' * old_mean + new_wt * cur) / (old_wt' + new_wt) in
  let cov' :=
    (old_wt' * (cov st + (old_mean - mean') * (old_mean - mean'))
     + new_wt * ((cur - mean') * (cur - mean'))) / (old_wt' + new_wt) in
  {| mean_x := mean';
     cov := cov';
     sum_wt := sum_wt' + new_wt;
     sum_wt2 := sum_wt2' + new_wt * new_wt;
     old_wt := old_wt' + new_wt |}.

(** The value written at a position after the first ([bias=False]). *)
Definition cov_out (st : cov_state) : float :=
  let numerator := sum_wt st * sum_wt st in
  let denominator := numerator - sum_wt2 st in
  if Rltb 0 denominator then Fin (numerator / denominator * cov st)
  else NaN.

Fixpoint var_loop (st : cov_state) (xs : list R) : list float :=
  match xs with
  | [] => []
  | cur :: rest =>
      let st' := cov_step st cur in
      cov_out st' :: var_loop st' rest
  end.

Definition var (xs : list R) : list float :=
  match xs with
  | [] => []
  | x0 :: rest => NaN :: var_loop (cov_init x0) rest
  end.

(** [zsqrt]: the square root, with 0 where the argument is negative. *)
Definition zsqrt (a : float) : float :=
  match a with
  | NaN => NaN
  | PInf => PInf
  | NInf => Fin 0
  | Fin x => if Rltb x 0 then Fin 0 else Fin (sqrt x)
  end.

Definition std (xs : list R) : list float := map zsqrt (var xs).

End Recurrences.

End Ewm.

(** [series.ewm(span=span).mean()] and [series.ewm(span=span).std()]. *)
Definition ewm_mean (span : R) (xs : list R) : result (list float) :=
  bind (get_center_of_mass span) (fun com => Ok (Ewm.mean com xs)).

Definition ewm_std (span : R) (xs : list R) : result (list float) :=
  bind (get_center_of_mass span) (fun com => Ok (Ewm.std com xs)).

(** ** The notebook *)

(** A row of the log table returned by [acquire_logs]; of its columns the
    pipeline reads [date], [endpoint] and [user_id].  [date] is the value
    [pd.to_datetime] yields, in nanoseconds since the epoch; [endpoint] is
    [None] where the path is null. *)
Record LogRow : Type := {
  date : Z;
  endpoint : option String.string;
  user_id : Z
}.

(** A series: index labels with their values, in index order. *)
Definition Series (A : Type) : Type := list (Z * A).

Definition day_ns : Z := 86400000000000%Z.

(** The daily bin of a timestamp. *)
Definition day_of (t : Z) : Z := (t / day_ns)%Z.

Definition notnull {A : Type} (o : option A) : bool :=
  match o with Some _ => true | None => false end.

(** Number of non-null values of [s] in the bin [day]. *)
Definition count_in_bin {A : Type} (s : Series (option A)) (day : Z) : Z :=
  Z.of_nat
    (length (filter (fun p => (day_of (fst p) =? day)%Z && notnull (snd p)) s)).

(** [s.resample('d').count()]: one bin per day from the day of the
    earliest label to the day of the latest one, labelled by the start
    of the day; no bin for an empty series. *)
Definition resample_d_count {A : Type} (s : Series (option A)) : Series Z :=
  match map (fun p => day_of (fst p)) s with
  | [] => []
  | d :: ds =>
      let first := fold_right Z.min d ds in
      let last := fold_right Z.max d ds in
      map (fun k => let day := (first + Z.of_nat k)%Z in
                    ((day * day_ns)%Z, count_in_bin s day))
          (seq 0 (Z.to_nat (last - first + 1)))
  end.

Definition one_user_df_prep (df : list LogRow) (user : Z) : Series Z :=
  let df := filter (fun r => (user_id r =? user)%Z) df in
  let df := map (fun r => (date r, endpoint r)) df in
  resample_d_count df.

(** A row of [my_df]. *)
Record BandRow : Type := {
  row_date : Z;
  pages_one_user : R;
  midband : float;
  ub : float;
  lb : float;
  pct_b : float;
  row_user_id : Z
}.

Fixpoint zip_with {A B C : Type} (f : A -> B -> C)
    (l1 : list A) (l2 : list B) : list C :=
  match l1, l2 with
  | a :: l1', b :: l2' => f a b :: zip_with f l1' l2'
  | _, _ => []
  end.

(** The columns put side by side, with [pct_b] and [user_id] added. *)
Fixpoint band_rows (s : Series R) (midband ub lb : list float) (user : Z)
    : list BandRow :=
  match s, midband, ub, lb with
  | (d, x) :: s', m :: ms, u :: us, l :: ls =>
      {| row_date := d;
         pages_one_user := x;
         midband := m;
         ub := u;
         lb := l;
         pct_b := fdiv (fsub (Fin x) l) (fsub u l);
         row_user_id := user |} :: band_rows s' ms us ls user
  | _, _, _, _ => []
  end.

Definition compute_pct_b (pages_one_user : Series R) (span weight : R)
    (user : Z) : result (list BandRow) :=
  let values := map snd pages_one_user in
  bind (ewm_mean span values) (fun midband =>
  bind (ewm_std span values) (fun stdev =>
  let ub := zip_with fadd midband (map (fun s => fmul s (Fin weight)) stdev) in
  let lb := zip_with fsub midband (map (fun s => fmul s (Fin weight)) stdev) in
  Ok (band_rows pages_one_user midband ub lb user))).

(** The counts as the float values the window functions work on. *)
Definition as_float (s : Series Z) : Series R :=
  map (fun p => (fst p, IZR (snd p))) s.

(** [my_df[my_df.pct_b > 1]] *)
Definition above_upper_band (my_df : list BandRow) : list BandRow :=
  filter (fun r => fgt (pct_b r) (Fin 1)) my_df.

(** Plotting leaves the returned table unchanged and is left out. *)
Definition find_anomalies (df : list LogRow) (user : Z) (span weight : R)
    : result (list BandRow) :=
  let pages_one_user := one_user_df_prep df user in
  bind (compute_pct_b (as_float pages_one_user) span weight user)
       (fun my_df => Ok (above_upper_band my_df)).

(** ** The notebook, outside the functions *)

(** [df.user_id.unique()]: the distinct values, in order of first
    appearance. *)
Fixpoint unique (l : list Z) : list Z :=
  match l with
  | [] => []
  | x :: rest => x :: filter (fun y => negb (y =? x)%Z) (unique rest)
  end.

(** The cell that examines all users,
    [for u in list(df.user_id.unique()):
       user_df = find_anomalies(df, u, span, weight)
       anomalies = pd.concat([anomalies, user_df], axis=0)],
    started from an empty table: each user's anomalies are appended to
    the table built so far.  [span] and [weight] are the variables the
    cell sets before the loop. *)
Fixpoint anomalies_loop (df : list LogRow) (users : list Z) (span weight : R)
    (anomalies : list BandRow) : result (list BandRow) :=
  match users with
  | [] => Ok anomalies
  | u :: rest =>
      bind (find_anomalies df u span weight) (fun user_df =>
      anomalies_loop df rest span weight (anomalies ++ user_df))
  end.

Definition anomalies_all_users (df : list LogRow) (span weight : R)
    : result (list BandRow) :=
  anomalies_loop df (unique (map user_id df)) span weight [].

(** The Prepare cell, [pages = df['endpoint'].resample('d').count()]:
    the daily page views of all users together. *)
Definition pages (df : list LogRow) : Series Z :=
  resample_d_count (map (fun r => (date r, endpoint r)) df).

(** * Definitions used to state the properties *)

(** Smallest and largest of the values [x_0 .. x_t] of a series. *)
Definition seen_min (xs : list R) (t : nat) : R :=
  match xs with
  | [] => 0
  | x0 :: rest => fold_left Rmin (firstn t rest) x0
  end.

Definition seen_max (xs : list R) (t : nat) : R :=
  match xs with
  | [] => 0
  | x0 :: rest => fold_left Rmax (firstn t rest) x0
  end.

(** The weighted sum [sum_i q^(i0 + i) * past_i]: [past] lists the values
    from the most recent one backwards. *)
Fixpoint weighted_total (q : R) (i : nat) (past : list R) : R :=
  match past with
  | [] => 0
  | x :: older => q ^ i * x + weighted_total q (S i) older
  end.

(** The mean at position [t] as the ratio of weighted sums over
    [x_0 .. x_t], with weight [(1 - alpha)^i] on the value [i] steps in
    the past. *)
Definition weighted_mean_spec (alpha : R) (xs : list R) (t : nat) : R :=
  let past := rev (firstn (S t) xs) in
  weighted_total (1 - alpha) 0 past
  / weighted_total (1 - alpha) 0 (map (fun _ => 1) past).

(** As many weights 1 as there are values, and the squared deviations of
    the values from [c]. *)
Definition ones (l : list R) : list R := map (fun _ => 1) l.

Definition sq_dev (c : R) (l : list R) : list R :=
  map (fun x => (x - c) * (x - c)) l.

(** The variance over [past] (most recent value first) with weight [q^i]
    on the value [i] steps in the past: the weighted mean of the squared
    deviations from the weighted mean, times the correction
    [W^2 / (W^2 - W2)] of the sums [W] of the weights and [W2] of their
    squares; undefined when the correction is. *)
Definition var_of_past (q : R) (past : list R) : float :=
  let W := weighted_total q 0 (ones past) in
  let W2 := weighted_total (q * q) 0 (ones past) in
  let m := weighted_total q 0 past / W in
  let biased := weighted_total q 0 (sq_dev m past) / W in
  if Rltb 0 (W * W - W2) then Fin (W * W / (W * W - W2) * biased) else NaN.

(** The variance at position [t], over [x_0 .. x_t], with decay factor
    [1 - alpha]. *)
Definition weighted_var_spec (alpha : R) (xs : list R) (t : nat) : float :=
  var_of_past (1 - alpha) (rev (firstn (S t) xs)).

(** What links the state of [ewmcov] to the weighted sums over the
    values folded in so far. *)
Definition cf_inv (q : R) (st : Ewm.cov_state) (past : list R) : Prop :=
  1 <= Ewm.old_wt st
  /\ Ewm.old_wt st = weighted_total q 0 (ones past)
  /\ Ewm.sum_wt st = weighted_total q 0 (ones past)
  /\ Ewm.sum_wt2 st = weighted_total (q * q) 0 (ones past)
  /\ Ewm.mean_x st * Ewm.old_wt st = weighted_total q 0 past
  /\ Ewm.cov st * Ewm.old_wt st
     = weighted_total q 0 (sq_dev (Ewm.mean_x st) past).

(** What the running sums of [ewmcov] satisfy at every position. *)
Definition wt_inv (st : Ewm.cov_state) : Prop :=
  1 <= Ewm.old_wt st
  /\ Ewm.sum_wt st = Ewm.old_wt st
  /\ 0 < Ewm.sum_wt2 st <= Ewm.sum_wt st * Ewm.sum_wt st
  /\ 0 <= Ewm.cov st.

(** The row of [my_df] built from a label, a value, the mean and the
    standard deviation at the same position. *)
Definition band_row (d : Z) (x : R) (m sd : float) (weight : R) (user : Z)
    : BandRow :=
  let u := fadd m (fmul sd (Fin weight)) in
  let l := fsub m (fmul sd (Fin weight)) in
  {| row_date := d;
     pages_one_user := x;
     midband := m;
     ub := u;
     lb := l;
     pct_b := fdiv (fsub (Fin x) l) (fsub u l);
     row_user_id := user |}.

(** The days on which a user has rows in the log, the rows of a user on
    a day, and the number of those with an endpoint. *)
Definition user_days (df : list LogRow) (user : Z) : list Z :=
  map (fun r => day_of (date r)) (filter (fun r => (user_id r =? user)%Z) df).

Definition events_on (df : list LogRow) (user day : Z) : list LogRow :=
  filter (fun r => (user_id r =? user)%Z && (day_of (date r) =? day)%Z) df.

Definition views_on (df : list LogRow) (user day : Z) : Z :=
  Z.of_nat
    (length (filter (fun r => (user_id r =? user)%Z
                              && (day_of (date r) =? day)%Z
                              && notnull (endpoint r)) df)).

Definition sumZ (l : list Z) : Z := fold_right Z.add 0%Z l.

Definition total_count (s : Series Z) : Z := sumZ (map snd s).

Definition views_total (df : list LogRow) (user : Z) : Z :=
  Z.of_nat
    (length (filter (fun r => (user_id r =? user)%Z && notnull (endpoint r))
               df)).

(** The table returned for one user, empty where the call fails. *)
Definition anomalies_of (df : list LogRow) (span weight : R) (u : Z)
    : list BandRow :=
  match find_anomalies df u span weight with
  | Ok rows => rows
  | ValueError => []
  end.

(** The value of a series at a label, 0 where the label is missing. *)
Definition count_at (s : Series Z) (label : Z) : Z :=
  match find (fun p => (fst p =? label)%Z) s with
  | Some p => snd p
  | None => 0%Z
  end.

(** ** Worked inputs *)

(** Eight days of counts ending in a spike. *)
Definition spike_values : list R := [2; 3; 2; 4; 3; 2; 3; 50].

Definition spike_counts : Series Z :=
  [(0 * day_ns, 2); (1 * day_ns, 3); (2 * day_ns, 2); (3 * day_ns, 4);
   (4 * day_ns, 3); (5 * day_ns, 2); (6 * day_ns, 3); (7 * day_ns, 50)]%Z.

(** The rows of [my_df] for [spike_counts] with span 3 and weight 3. *)
Definition spike_rows (user : Z) : list BandRow :=
  [band_row (0 * day_ns) 2 (Fin 2) NaN 3 user;
   band_row (1 * day_ns) 3 (Fin (8 / 3)) (Fin (sqrt (1 / 2))) 3 user;
   band_row (2 * day_ns) 2 (Fin (16 / 7)) (Fin (sqrt (5 / 14))) 3 user;
   band_row (3 * day_ns) 4 (Fin (16 / 5)) (Fin (sqrt (93 / 70))) 3 user;
   band_row (4 * day_ns) 3 (Fin (96 / 31)) (Fin (sqrt (197 / 310))) 3 user;
   band_row (5 * day_ns) 2 (Fin (160 / 63)) (Fin (sqrt (997 / 1302))) 3 user;
   band_row (6 * day_ns) 3 (Fin (352 / 127)) (Fin (sqrt (2437 / 5334))) 3 user;
   band_row (7 * day_ns) 50 (Fin (6752 / 255))
     (Fin (sqrt (18134533 / 21590))) 3 user].

(** A log with [snd p] rows of [user] at each label [fst p] of [s]. *)
Definition log_rows_of_counts (user : Z) (s : Series Z) : list LogRow :=
  flat_map (fun p => repeat {| date := fst p;
                               endpoint := Some String.EmptyString;
                               user_id := user |} (Z.to_nat (snd p))) s.

(** A log in which user 1 has the counts of [spike_counts]. *)
Definition spike_log : list LogRow :=
  {| date := 0; endpoint := None; user_id := 2 |}
    :: log_rows_of_counts 1 spike_counts.

(** A log in which user 1 is seen on day 4 and on day 0, and not in
    between. *)
Definition gap_log : list LogRow :=
  [ {| date := (4 * day_ns + 7)%Z; endpoint := Some String.EmptyString;
       user_id := 1 |};
    {| date := (2 * day_ns)%Z; endpoint := Some String.EmptyString;
       user_id := 2 |};
    {| date := (0 * day_ns)%Z; endpoint := Some String.EmptyString;
       user_id := 1 |} ].

(** A series whose last value sits on its mean, and its rows with span 3. *)
Definition level_series : Series R :=
  [((0 * day_ns)%Z, 1); ((1 * day_ns)%Z, 4); ((2 * day_ns)%Z, 3)].

Definition level_rows (weight : R) (user : Z) : list BandRow :=
  [band_row (0 * day_ns) 1 (Fin 1) NaN weight user;
   band_row (1 * day_ns) 4 (Fin 3) (Fin (sqrt (9 / 2))) weight user;
   band_row (2 * day_ns) 3 (Fin 3) (Fin (sqrt (3 / 2))) weight user].

(** A constant series, and its rows with span 3. *)
Definition constant_series : Series R :=
  [((0 * day_ns)%Z, 5); ((1 * day_ns)%Z, 5)].

Definition constant_rows (weight : R) (user : Z) : list BandRow :=
  [band_row (0 * day_ns) 5 (Fin 5) NaN weight user;
   band_row (1 * day_ns) 5 (Fin 5) (Fin 0) weight user].

Definition level_counts : Series Z :=
  [(0 * day_ns, 1); (1 * day_ns, 4); (2 * day_ns, 3)]%Z.

Definition level_log : list LogRow :=
  {| date := (1 * day_ns)%Z; endpoint := Some String.EmptyString;
     user_id := 2 |}
    :: log_rows_of_counts 1 level_counts.

(** * Properties *)

(** ** Comparisons on reals as booleans *)

Lemma Rltb_true (x y : R) : Rltb x y = true <-> x < y.
Proof. unfold Rltb; destruct (Rlt_dec x y); split; intros; try easy; lra. Qed.

Lemma Rltb_false (x y : R) : Rltb x y = false <-> y <= x.
Proof. unfold Rltb; destruct (Rlt_dec x y); split; intros; try easy; lra. Qed.

Lemma Reqb_true (x y : R) : Reqb x y = true <-> x = y.
Proof. unfold Reqb; destruct (Req_dec_T x y); split; intros; easy. Qed.

Lemma Reqb_false (x y : R) : Reqb x y = false <-> x <> y.
Proof. unfold Reqb; destruct (Req_dec_T x y); split; intros; easy. Qed.

Ltac Rbool :=
  repeat match goal with
  | H : Rltb _ _ = true |- _ => apply Rltb_true in H
  | H : Rltb _ _ = false |- _ => apply Rltb_false in H
  | H : Reqb _ _ = true |- _ => apply Reqb_true in H
  | H : Reqb _ _ = false |- _ => apply Reqb_false in H
  end.

Lemma Rltb_lt (x y : R) : x < y -> Rltb x y = true.
Proof. apply Rltb_true. Qed.

Lemma Rltb_ge (x y : R) : y <= x -> Rltb x y = false.
Proof. apply Rltb_false. Qed.

Lemma Reqb_refl (x : R) : Reqb x x = true.
Proof. now apply Reqb_true. Qed.

Lemma Reqb_neq (x y : R) : x <> y -> Reqb x y = false.
Proof. apply Reqb_false. Qed.

(** ** The span check and the decay factor *)

Lemma get_center_of_mass_ok (span : R) :
  1 <= span -> get_center_of_mass span = Ok ((span - 1) / 2).
Proof. intros H; unfold get_center_of_mass; now rewrite Rltb_ge. Qed.

Lemma get_center_of_mass_error (span : R) :
  span < 1 -> get_center_of_mass span = ValueError.
Proof. intros H; unfold get_center_of_mass; now rewrite Rltb_lt. Qed.

Lemma old_wt_factor_eq (com : R) :
  0 <= com -> Ewm.old_wt_factor com = com / (1 + com).
Proof. intros H; unfold Ewm.old_wt_factor, Ewm.alpha; field; lra. Qed.

Lemma old_wt_factor_range (com : R) :
  0 <= com -> 0 <= Ewm.old_wt_factor com < 1.
Proof.
  intros H; rewrite old_wt_factor_eq by assumption.
  assert (Hp : 0 < 1 + com) by lra.
  split.
  - apply Rmult_le_pos; [assumption | left; now apply Rinv_0_lt_compat].
  - apply (Rmult_lt_reg_r (1 + com)); [assumption|]. field_simplify; lra.
Qed.

Lemma old_wt_factor_pos (com : R) : 0 < com -> 0 < Ewm.old_wt_factor com.
Proof.
  intros H; rewrite old_wt_factor_eq by lra.
  apply Rmult_lt_0_compat; [assumption | apply Rinv_0_lt_compat; lra].
Qed.

Lemma old_wt_factor_0 : Ewm.old_wt_factor 0 = 0.
Proof. unfold Ewm.old_wt_factor, Ewm.alpha; field. Qed.

(** The decay factor in terms of the span: [1 - alpha] with
    [alpha = 2 / (span + 1)]. *)
Lemma old_wt_factor_span (span : R) :
  1 <= span -> Ewm.old_wt_factor ((span - 1) / 2) = 1 - 2 / (span + 1).
Proof. intros H; unfold Ewm.old_wt_factor, Ewm.alpha; field; lra. Qed.

(** ** The weighted mean *)

Section MeanFacts.

Variable com : R.
Hypothesis Hcom : 0 <= com.

Let q := Ewm.old_wt_factor com.

Lemma mean_step_old_wt st cur :
  Ewm.m_old_wt (Ewm.mean_step com st cur) = Ewm.m_old_wt st * q + 1.
Proof. reflexivity. Qed.

Lemma mean_step_old_wt_pos st cur :
  0 <= Ewm.m_old_wt st -> 0 <= Ewm.m_old_wt (Ewm.mean_step com st cur).
Proof.
  intros H; rewrite mean_step_old_wt.
  pose proof (old_wt_factor_range com Hcom) as [Hq _]; fold q in Hq.
  nra.
Qed.

(** The test that skips the update on a repeated value does not change
    the result: the update would return the same value. *)
Lemma mean_step_weighted st cur :
  0 <= Ewm.m_old_wt st ->
  Ewm.weighted (Ewm.mean_step com st cur)
  = (Ewm.m_old_wt st * q * Ewm.weighted st + cur)
    / (Ewm.m_old_wt st * q + 1).
Proof.
  intros H.
  pose proof (old_wt_factor_range com Hcom) as [Hq _]; fold q in Hq.
  assert (Hd : 0 < Ewm.m_old_wt st * q + 1) by nra.
  unfold Ewm.mean_step, Ewm.new_wt; cbn [Ewm.weighted]; fold q.
  destruct (Reqb (Ewm.weighted st) cur) eqn:E; Rbool.
  - rewrite <- E; field; lra.
  - field; lra.
Qed.

Lemma mean_step_between st cur :
  0 <= Ewm.m_old_wt st ->
  Rmin (Ewm.weighted st) cur <= Ewm.weighted (Ewm.mean_step com st cur)
    <= Rmax (Ewm.weighted st) cur.
Proof.
  intros H; rewrite mean_step_weighted by assumption.
  pose proof (old_wt_factor_range com Hcom) as [Hq _]; fold q in Hq.
  set (o := Ewm.m_old_wt st * q).
  assert (Ho : 0 <= o) by (unfold o; nra).
  assert (Hd : 0 < o + 1) by lra.
  set (w := Ewm.weighted st).
  pose proof (Rmin_l w cur); pose proof (Rmin_r w cur).
  pose proof (Rmax_l w cur); pose proof (Rmax_r w cur).
  split.
  - apply (Rmult_le_reg_r (o + 1)); [assumption|].
    unfold Rdiv; rewrite Rmult_assoc, Rinv_l by lra. nra.
  - apply (Rmult_le_reg_r (o + 1)); [assumption|].
    unfold Rdiv; rewrite Rmult_assoc, Rinv_l by lra. nra.
Qed.

Lemma mean_loop_length st xs :
  length (Ewm.mean_loop com st xs) = length xs.
Proof.
  revert st; induction xs as [|cur rest IH]; intros st; simpl;
    [reflexivity | now rewrite IH].
Qed.

Lemma mean_length xs : length (Ewm.mean com xs) = length xs.
Proof. destruct xs; simpl; [reflexivity | now rewrite mean_loop_length]. Qed.

Lemma fold_left_Rmin_le l : forall a b, a <= b ->
  fold_left Rmin l a <= fold_left Rmin l b.
Proof.
  induction l as [|x l IH]; intros a b H; simpl; [assumption|].
  apply IH. unfold Rmin; repeat destruct Rle_dec; lra.
Qed.

Lemma fold_left_Rmax_le l : forall a b, a <= b ->
  fold_left Rmax l a <= fold_left Rmax l b.
Proof.
  induction l as [|x l IH]; intros a b H; simpl; [assumption|].
  apply IH. unfold Rmax; repeat destruct Rle_dec; lra.
Qed.

Lemma mean_loop_between rest : forall st lo hi t,
  0 <= Ewm.m_old_wt st ->
  lo <= Ewm.weighted st <= hi ->
  (t < length rest)%nat ->
  exists r,
    nth_error (Ewm.mean_loop com st rest) t = Some (Fin r)
    /\ fold_left Rmin (firstn (S t) rest) lo <= r
       <= fold_left Rmax (firstn (S t) rest) hi.
Proof.
  induction rest as [|cur rest IH]; intros st lo hi t Ho Hb Ht;
    [simpl in Ht; lia|].
  pose proof (mean_step_between st cur Ho) as Hs.
  pose proof (mean_step_old_wt_pos st cur Ho) as Ho'.
  assert (Hb' : Rmin lo cur <= Ewm.weighted (Ewm.mean_step com st cur)
                <= Rmax hi cur).
  { split.
    - apply Rle_trans with (2 := proj1 Hs).
      unfold Rmin; repeat destruct Rle_dec; lra.
    - apply Rle_trans with (1 := proj2 Hs).
      unfold Rmax; repeat destruct Rle_dec; lra. }
  destruct t as [|t].
  - exists (Ewm.weighted (Ewm.mean_step com st cur)).
    split; [reflexivity | exact Hb'].
  - simpl in Ht.
    destruct (IH (Ewm.mean_step com st cur) (Rmin lo cur) (Rmax hi cur) t
                Ho' Hb' ltac:(lia)) as (r & Hr & Hbr).
    exists r; split; [exact Hr | exact Hbr].
Qed.

End MeanFacts.



(** ** Span 1: no smoothing *)

Lemma mean_step_span_1 st cur :
  Ewm.weighted (Ewm.mean_step 0 st cur) = cur.
Proof.
  unfold Ewm.mean_step, Ewm.new_wt; cbn [Ewm.weighted].
  rewrite old_wt_factor_0.
  destruct (Reqb (Ewm.weighted st) cur) eqn:E; Rbool; [assumption|].
  field.
Qed.

Lemma mean_loop_span_1 xs : forall st, Ewm.mean_loop 0 st xs = map Fin xs.
Proof.
  induction xs as [|cur rest IH]; intros st; cbn [Ewm.mean_loop map];
    [reflexivity|].
  now rewrite mean_step_span_1, IH.
Qed.

(** C6: with span 1 the weighted mean at every position is the value at
    that position. *)
Theorem mean_span_1_is_value (xs : list R) :
  ewm_mean 1 xs = Ok (map Fin xs).
Proof.
  unfold ewm_mean. rewrite get_center_of_mass_ok by lra.
  replace ((1 - 1) / 2) with 0 by lra. simpl.
  destruct xs as [|x0 rest]; cbn [Ewm.mean map]; [reflexivity|].
  now rewrite mean_loop_span_1.
Qed.

(** ** The weighted standard deviation *)

Section CovFacts.

Variable com : R.
Hypothesis Hcom : 0 <= com.

Let q := Ewm.old_wt_factor com.

Lemma wt_inv_init x0 : wt_inv (Ewm.cov_init x0).
Proof. unfold wt_inv; simpl; lra. Qed.

Lemma cov_step_mean st cur :
  0 <= Ewm.old_wt st ->
  Ewm.mean_x (Ewm.cov_step com st cur)
  = (Ewm.old_wt st * q * Ewm.mean_x st + cur) / (Ewm.old_wt st * q + 1).
Proof.
  intros H.
  pose proof (old_wt_factor_range com Hcom) as [Hq _]; fold q in Hq.
  assert (Hd : 0 < Ewm.old_wt st * q + 1) by nra.
  unfold Ewm.cov_step, Ewm.new_wt; cbn [Ewm.mean_x]; fold q.
  destruct (Reqb (Ewm.mean_x st) cur) eqn:E; Rbool.
  - rewrite <- E; field; lra.
  - field; lra.
Qed.

Lemma cov_step_cov st cur :
  Ewm.cov (Ewm.cov_step com st cur)
  = (Ewm.old_wt st * q
       * (Ewm.cov st
          + (Ewm.mean_x st - Ewm.mean_x (Ewm.cov_step com st cur))
            * (Ewm.mean_x st - Ewm.mean_x (Ewm.cov_step com st cur)))
     + (cur - Ewm.mean_x (Ewm.cov_step com st cur))
       * (cur - Ewm.mean_x (Ewm.cov_step com st cur)))
    / (Ewm.old_wt st * q + 1).
Proof.
  unfold q, Ewm.cov_step, Ewm.new_wt; cbn [Ewm.cov Ewm.mean_x].
  unfold Rdiv; ring.
Qed.

Lemma wt_inv_step st cur : wt_inv st -> wt_inv (Ewm.cov_step com st cur).
Proof.
  intros (Ho & Hs & Hs2 & Hc).
  pose proof (old_wt_factor_range com Hcom) as [Hq Hq1]; fold q in Hq, Hq1.
  assert (Hoq : 0 <= Ewm.old_wt st * q) by nra.
  unfold wt_inv. rewrite cov_step_cov.
  unfold Ewm.cov_step, Ewm.new_wt;
    cbn [Ewm.old_wt Ewm.sum_wt Ewm.sum_wt2]; fold q.
  repeat split.
  - lra.
  - rewrite Hs; reflexivity.
  - assert (0 <= Ewm.sum_wt2 st * (q * q)) by nra. lra.
  - rewrite Hs in *.
    assert (Ewm.sum_wt2 st * (q * q)
            <= Ewm.old_wt st * Ewm.old_wt st * (q * q)) by nra.
    nra.
  - apply Rmult_le_pos; [|left; apply Rinv_0_lt_compat; lra].
    set (d1 := Ewm.mean_x st - _). set (d2 := cur - _).
    pose proof (Rle_0_sqr d1) as H1; pose proof (Rle_0_sqr d2) as H2.
    unfold Rsqr in H1, H2. nra.
Qed.

(** The correction factor of the unbiased variance has a positive
    denominator as soon as one step has been taken with a decay factor
    below 1, and a zero denominator when the decay factor is 1. *)
Lemma cov_step_denominator st cur :
  wt_inv st ->
  let st' := Ewm.cov_step com st cur in
  Ewm.sum_wt st' * Ewm.sum_wt st' - Ewm.sum_wt2 st'
  = q * q * (Ewm.sum_wt st * Ewm.sum_wt st - Ewm.sum_wt2 st)
    + 2 * q * Ewm.sum_wt st.
Proof.
  intros _; unfold Ewm.cov_step, Ewm.new_wt;
    cbn [Ewm.sum_wt Ewm.sum_wt2]; fold q. ring.
Qed.

Lemma cov_out_defined st cur :
  0 < com -> wt_inv st ->
  exists v, Ewm.cov_out (Ewm.cov_step com st cur) = Fin v /\ 0 <= v.
Proof.
  intros Hpos Hinv.
  pose proof (wt_inv_step st cur Hinv) as (Ho' & Hs' & Hs2' & Hc').
  pose proof (cov_step_denominator st cur Hinv) as Hd; cbv zeta in Hd.
  destruct Hinv as (Ho & Hs & Hs2 & Hc).
  pose proof (old_wt_factor_pos com Hpos) as Hq; fold q in Hq.
  assert (Hden : 0 < Ewm.sum_wt (Ewm.cov_step com st cur)
                     * Ewm.sum_wt (Ewm.cov_step com st cur)
                     - Ewm.sum_wt2 (Ewm.cov_step com st cur)).
  { rewrite Hd. rewrite Hs in *.
    assert (0 <= q * q * (Ewm.old_wt st * Ewm.old_wt st - Ewm.sum_wt2 st))
      by (apply Rmult_le_pos; nra).
    assert (0 < 2 * q * Ewm.old_wt st) by nra. lra. }
  unfold Ewm.cov_out. rewrite (Rltb_lt _ _ Hden).
  eexists; split; [reflexivity|].
  apply Rmult_le_pos; [|assumption].
  apply Rmult_le_pos; [nra | left; now apply Rinv_0_lt_compat].
Qed.

Lemma var_loop_length st xs : length (Ewm.var_loop com st xs) = length xs.
Proof.
  revert st; induction xs as [|cur rest IH]; intros st; simpl;
    [reflexivity | now rewrite IH].
Qed.

Lemma std_length xs : length (Ewm.std com xs) = length xs.
Proof.
  unfold Ewm.std; rewrite length_map.
  destruct xs; simpl; [reflexivity | now rewrite var_loop_length].
Qed.

Lemma var_loop_defined xs : forall st t v,
  0 < com -> wt_inv st ->
  nth_error (Ewm.var_loop com st xs) t = Some v ->
  exists r, v = Fin r /\ 0 <= r.
Proof.
  induction xs as [|cur rest IH]; intros st t v Hpos Hinv Hn;
    [destruct t; discriminate|].
  destruct t as [|t]; simpl in Hn.
  - injection Hn as <-. now apply cov_out_defined.
  - apply (IH _ _ _ Hpos (wt_inv_step st cur Hinv) Hn).
Qed.

End CovFacts.

Lemma zsqrt_Fin (r : R) : 0 <= r -> Ewm.zsqrt (Fin r) = Fin (sqrt r).
Proof. intros H; unfold Ewm.zsqrt; now rewrite Rltb_ge. Qed.

Lemma cov_out_span_1 st cur : Ewm.cov_out (Ewm.cov_step 0 st cur) = NaN.
Proof.
  unfold Ewm.cov_out, Ewm.cov_step, Ewm.new_wt;
    cbn [Ewm.sum_wt Ewm.sum_wt2].
  rewrite old_wt_factor_0. rewrite Rltb_ge; [reflexivity | lra].
Qed.

Lemma var_loop_span_1 xs : forall st t v,
  nth_error (Ewm.var_loop 0 st xs) t = Some v -> v = NaN.
Proof.
  induction xs as [|cur rest IH]; intros st t v Hn;
    [destruct t; discriminate|].
  destruct t as [|t]; simpl in Hn.
  - injection Hn as <-. apply cov_out_span_1.
  - apply (IH _ _ _ Hn).
Qed.




(** ** The rows of [compute_pct_b] *)

Section Rows.

Variables (weight : R) (user : Z).

Let scaled (sds : list float) : list float :=
  map (fun s => fmul s (Fin weight)) sds.

Lemma band_rows_nth (s : Series R) : forall ms sds t r,
  nth_error (band_rows s ms (zip_with fadd ms (scaled sds))
               (zip_with fsub ms (scaled sds)) user) t = Some r ->
  exists d x m sd,
    nth_error s t = Some (d, x)
    /\ nth_error ms t = Some m
    /\ nth_error sds t = Some sd
    /\ r = band_row d x m sd weight user.
Proof.
  induction s as [|[d x] s IH]; intros ms sds t r H;
    [destruct t; discriminate|].
  destruct ms as [|m ms]; [destruct t; discriminate|].
  destruct sds as [|sd sds]; [destruct t; discriminate|].
  destruct t as [|t]; cbn in H.
  - injection H as <-. exists d, x, m, sd. repeat split.
  - apply IH in H. exact H.
Qed.

Lemma band_rows_length (s : Series R) : forall ms sds,
  length ms = length s -> length sds = length s ->
  length (band_rows s ms (zip_with fadd ms (scaled sds))
            (zip_with fsub ms (scaled sds)) user) = length s.
Proof.
  induction s as [|[d x] s IH]; intros ms sds Hm Hs; [reflexivity|].
  destruct ms as [|m ms]; [discriminate|].
  destruct sds as [|sd sds]; [discriminate|].
  cbn. f_equal. apply IH; simpl in *; lia.
Qed.

End Rows.

Lemma compute_pct_b_ok (s : Series R) (span weight : R) (user : Z) :
  1 <= span ->
  exists rows,
    compute_pct_b s span weight user = Ok rows /\ length rows = length s.
Proof.
  intros Hspan. unfold compute_pct_b, ewm_mean, ewm_std.
  rewrite get_center_of_mass_ok by assumption. cbn [bind].
  eexists; split; [reflexivity|].
  assert (Hcom : 0 <= (span - 1) / 2) by lra.
  apply band_rows_length.
  - now rewrite mean_length, length_map.
  - now rewrite std_length, length_map.
Qed.

Lemma compute_pct_b_error (s : Series R) (span weight : R) (user : Z) :
  span < 1 -> compute_pct_b s span weight user = ValueError.
Proof.
  intros Hspan. unfold compute_pct_b, ewm_mean.
  now rewrite get_center_of_mass_error.
Qed.

Lemma compute_pct_b_row (s : Series R) (span weight : R) (user : Z)
    (rows : list BandRow) (t : nat) (r : BandRow) :
  compute_pct_b s span weight user = Ok rows ->
  nth_error rows t = Some r ->
  1 <= span
  /\ exists d x m sd,
      nth_error s t = Some (d, x)
      /\ nth_error (Ewm.mean ((span - 1) / 2) (map snd s)) t = Some m
      /\ nth_error (Ewm.std ((span - 1) / 2) (map snd s)) t = Some sd
      /\ r = band_row d x m sd weight user.
Proof.
  intros Hc Hn.
  destruct (Rlt_dec span 1) as [Hlt|Hge].
  - rewrite compute_pct_b_error in Hc by assumption. discriminate.
  - split; [lra|].
    unfold compute_pct_b, ewm_mean, ewm_std in Hc.
    rewrite get_center_of_mass_ok in Hc by lra. cbn [bind] in Hc.
    injection Hc as <-. now apply band_rows_nth in Hn.
Qed.

(** The mean is a number at every position; the standard deviation is a
    non-negative number or undefined. *)
Lemma mean_nth_Fin (com : R) (xs : list R) (t : nat) (m : float) :
  nth_error (Ewm.mean com xs) t = Some m -> exists r, m = Fin r.
Proof.
  destruct xs as [|x0 rest]; [destruct t; discriminate|].
  destruct t as [|t]; simpl.
  - intros [= <-]; now exists x0.
  - generalize (Ewm.mean_init x0). revert t.
    induction rest as [|cur rest IH]; intros t st H;
      [destruct t; discriminate|].
    destruct t as [|t]; cbn [Ewm.mean_loop nth_error] in H.
    + injection H as <-; eauto.
    + eapply IH; eassumption.
Qed.

Lemma zsqrt_cov_out (com : R) (st : Ewm.cov_state) :
  Ewm.zsqrt (Ewm.cov_out st) = NaN
  \/ exists r, Ewm.zsqrt (Ewm.cov_out st) = Fin r /\ 0 <= r.
Proof.
  unfold Ewm.cov_out. destruct (Rltb 0 _); [|now left].
  right. unfold Ewm.zsqrt. destruct (Rltb _ 0).
  - exists 0; split; [reflexivity | lra].
  - eexists; split; [reflexivity | apply sqrt_pos].
Qed.

Lemma std_nth_cases (com : R) (xs : list R) (t : nat) (sd : float) :
  nth_error (Ewm.std com xs) t = Some sd ->
  sd = NaN \/ exists r, sd = Fin r /\ 0 <= r.
Proof.
  unfold Ewm.std. rewrite nth_error_map.
  destruct xs as [|x0 rest]; [destruct t; discriminate|].
  destruct t as [|t]; simpl.
  - intros [= <-]; now left.
  - generalize (Ewm.cov_init x0). revert t.
    induction rest as [|cur rest IH]; intros t st H;
      [destruct t; discriminate|].
    destruct t as [|t]; cbn [Ewm.var_loop nth_error option_map] in H.
    + injection H as <-. apply (zsqrt_cov_out com).
    + eapply IH; eassumption.
Qed.

(** A row whose upper band is defined was built from a mean [m] and a
    standard deviation [s >= 0], and its bands are [m + s * weight] and
    [m - s * weight]. *)
Lemma bands_defined_row (s : Series R) (span weight : R) (user : Z)
    (rows : list BandRow) (t : nat) (r : BandRow) :
  compute_pct_b s span weight user = Ok rows ->
  nth_error rows t = Some r ->
  is_defined (ub r) ->
  exists d x m sd,
    nth_error s t = Some (d, x)
    /\ nth_error (Ewm.mean ((span - 1) / 2) (map snd s)) t = Some (Fin m)
    /\ nth_error (Ewm.std ((span - 1) / 2) (map snd s)) t = Some (Fin sd)
    /\ 0 <= sd
    /\ r = band_row d x (Fin m) (Fin sd) weight user.
Proof.
  intros Hc Hn Hdef.
  destruct (compute_pct_b_row _ _ _ _ _ _ _ Hc Hn)
    as (Hspan & d & x & m & sd & Hs & Hm & Hsd & ->).
  destruct (mean_nth_Fin _ _ _ _ Hm) as (m' & ->).
  destruct (std_nth_cases _ _ _ _ Hsd) as [-> | (sd' & -> & Hpos)].
  - exfalso; apply Hdef; reflexivity.
  - exists d, x, m', sd'. repeat split; assumption.
Qed.

Lemma band_row_Fin_ub d x m sd weight user :
  ub (band_row d x (Fin m) (Fin sd) weight user) = Fin (m + sd * weight).
Proof. reflexivity. Qed.

Lemma band_row_Fin_lb d x m sd weight user :
  lb (band_row d x (Fin m) (Fin sd) weight user) = Fin (m - sd * weight).
Proof. reflexivity. Qed.

Lemma band_row_Fin_pct_b d x m sd weight user :
  sd * weight <> 0 ->
  pct_b (band_row d x (Fin m) (Fin sd) weight user)
  = Fin ((x - (m - sd * weight)) / ((m + sd * weight) - (m - sd * weight))).
Proof.
  intros H. unfold band_row; cbn.
  rewrite Reqb_neq; [reflexivity|]. lra.
Qed.

Lemma band_row_Fin_pct_b_zero_width d x m sd weight user :
  sd * weight = 0 ->
  pct_b (band_row d x (Fin m) (Fin sd) weight user) = inf_of_sign (x - m).
Proof.
  intros H. unfold band_row; cbn.
  replace (m + sd * weight + - (m + - (sd * weight))) with 0 by lra.
  rewrite Reqb_refl. f_equal. lra.
Qed.



(** ** Evaluating the recurrences on given numbers *)

Lemma mean_step_eval (com q : R) (st : Ewm.mean_state) (cur : R)
    (st' : Ewm.mean_state) :
  Ewm.old_wt_factor com = q -> 0 <= q -> 0 <= Ewm.m_old_wt st ->
  Ewm.weighted st' * (Ewm.m_old_wt st * q + 1)
    = Ewm.m_old_wt st * q * Ewm.weighted st + cur ->
  Ewm.m_old_wt st' = Ewm.m_old_wt st * q + 1 ->
  Ewm.mean_step com st cur = st'.
Proof.
  intros Hq Hq0 Ho Hw Ho'.
  assert (Hd : 0 < Ewm.m_old_wt st * q + 1) by nra.
  destruct st' as [w' o']; cbn [Ewm.weighted Ewm.m_old_wt] in *.
  unfold Ewm.mean_step, Ewm.new_wt. rewrite Hq.
  f_equal; [|lra].
  destruct (Reqb (Ewm.weighted st) cur) eqn:E; Rbool.
  - apply (Rmult_eq_reg_r (Ewm.m_old_wt st * q + 1)); [|lra].
    rewrite Hw, E. ring.
  - apply (Rmult_eq_reg_r (Ewm.m_old_wt st * q + 1)); [|lra].
    rewrite Hw. field. lra.
Qed.

Lemma cov_step_eval (com q : R) (st : Ewm.cov_state) (cur : R)
    (st' : Ewm.cov_state) :
  Ewm.old_wt_factor com = q -> 0 <= q -> 0 <= Ewm.old_wt st ->
  Ewm.mean_x st' * (Ewm.old_wt st * q + 1)
    = Ewm.old_wt st * q * Ewm.mean_x st + cur ->
  Ewm.cov st' * (Ewm.old_wt st * q + 1)
    = Ewm.old_wt st * q
        * (Ewm.cov st + (Ewm.mean_x st - Ewm.mean_x st')
                        * (Ewm.mean_x st - Ewm.mean_x st'))
      + (cur - Ewm.mean_x st') * (cur - Ewm.mean_x st') ->
  Ewm.sum_wt st' = Ewm.sum_wt st * q + 1 ->
  Ewm.sum_wt2 st' = Ewm.sum_wt2 st * (q * q) + 1 ->
  Ewm.old_wt st' = Ewm.old_wt st * q + 1 ->
  Ewm.cov_step com st cur = st'.
Proof.
  intros Hq Hq0 Ho Hm Hc Hs Hs2 Ho'.
  assert (Hd : 0 < Ewm.old_wt st * q + 1) by nra.
  assert (Hmean : Ewm.mean_x (Ewm.cov_step com st cur) = Ewm.mean_x st').
  { unfold Ewm.cov_step, Ewm.new_wt; cbn [Ewm.mean_x]. rewrite Hq.
    apply (Rmult_eq_reg_r (Ewm.old_wt st * q + 1)); [|lra]. rewrite Hm.
    destruct (Reqb (Ewm.mean_x st) cur) eqn:E; Rbool.
    - rewrite E; ring.
    - field; lra. }
  destruct st' as [m' c' s' s2' o'].
  cbn [Ewm.mean_x Ewm.cov Ewm.sum_wt Ewm.sum_wt2 Ewm.old_wt] in *.
  unfold Ewm.cov_step in *. cbn [Ewm.mean_x] in Hmean. cbv zeta.
  rewrite Hmean. unfold Ewm.new_wt. rewrite Hq.
  f_equal; try lra.
  apply (Rmult_eq_reg_r (Ewm.old_wt st * q + 1)); [|lra]. rewrite Hc.
  field; lra.
Qed.

Lemma span_3_factor : Ewm.old_wt_factor ((3 - 1) / 2) = 1 / 2.
Proof. unfold Ewm.old_wt_factor, Ewm.alpha. lra. Qed.

Ltac eval_mean_step st' :=
  rewrite (mean_step_eval _ (1 / 2) _ _ st')
    by first [ exact span_3_factor
             | cbn [Ewm.weighted Ewm.m_old_wt Ewm.mean_init]; lra ].

Lemma spike_mean :
  Ewm.mean ((3 - 1) / 2) spike_values
  = [Fin 2; Fin (8 / 3); Fin (16 / 7); Fin (16 / 5); Fin (96 / 31);
     Fin (160 / 63); Fin (352 / 127); Fin (6752 / 255)].
Proof.
  unfold spike_values. cbn [Ewm.mean Ewm.mean_loop].
  eval_mean_step (Ewm.MeanState (8 / 3) (3 / 2)).
  eval_mean_step (Ewm.MeanState (16 / 7) (7 / 4)).
  eval_mean_step (Ewm.MeanState (16 / 5) (15 / 8)).
  eval_mean_step (Ewm.MeanState (96 / 31) (31 / 16)).
  eval_mean_step (Ewm.MeanState (160 / 63) (63 / 32)).
  eval_mean_step (Ewm.MeanState (352 / 127) (127 / 64)).
  eval_mean_step (Ewm.MeanState (6752 / 255) (255 / 128)).
  reflexivity.
Qed.

Lemma std_out_eval (st : Ewm.cov_state) (v : R) :
  0 <= v ->
  0 < Ewm.sum_wt st * Ewm.sum_wt st - Ewm.sum_wt2 st ->
  v * (Ewm.sum_wt st * Ewm.sum_wt st - Ewm.sum_wt2 st)
    = Ewm.sum_wt st * Ewm.sum_wt st * Ewm.cov st ->
  Ewm.zsqrt (Ewm.cov_out st) = Fin (sqrt v).
Proof.
  intros Hv Hd He. unfold Ewm.cov_out. rewrite (Rltb_lt _ _ Hd).
  replace (_ / _ * _) with v; [now apply zsqrt_Fin|].
  apply (Rmult_eq_reg_r (Ewm.sum_wt st * Ewm.sum_wt st - Ewm.sum_wt2 st));
    [|lra].
  rewrite He. field. lra.
Qed.

Ltac eval_cov_step st' :=
  rewrite (cov_step_eval _ (1 / 2) _ _ st')
    by first [ exact span_3_factor
             | cbn [Ewm.mean_x Ewm.cov Ewm.sum_wt Ewm.sum_wt2 Ewm.old_wt
                    Ewm.cov_init]; lra ].

Ltac eval_std_out v :=
  rewrite (std_out_eval _ v)
    by (cbn [Ewm.mean_x Ewm.cov Ewm.sum_wt Ewm.sum_wt2 Ewm.old_wt]; lra).

Lemma spike_std :
  Ewm.std ((3 - 1) / 2) spike_values
  = [NaN; Fin (sqrt (1 / 2)); Fin (sqrt (5 / 14)); Fin (sqrt (93 / 70));
     Fin (sqrt (197 / 310)); Fin (sqrt (997 / 1302));
     Fin (sqrt (2437 / 5334)); Fin (sqrt (18134533 / 21590))].
Proof.
  unfold spike_values, Ewm.std. cbn [Ewm.var Ewm.var_loop map].
  eval_cov_step (Ewm.CovState (8 / 3) (2 / 9) (3 / 2) (5 / 4) (3 / 2)).
  eval_cov_step (Ewm.CovState (16 / 7) (10 / 49) (7 / 4) (21 / 16) (7 / 4)).
  eval_cov_step (Ewm.CovState (16 / 5) (62 / 75) (15 / 8) (85 / 64) (15 / 8)).
  eval_cov_step
    (Ewm.CovState (96 / 31) (394 / 961) (31 / 16) (341 / 256) (31 / 16)).
  eval_cov_step
    (Ewm.CovState (160 / 63) (1994 / 3969) (63 / 32) (1365 / 1024) (63 / 32)).
  eval_cov_step
    (Ewm.CovState (352 / 127) (4874 / 16129) (127 / 64) (5461 / 4096)
       (127 / 64)).
  eval_cov_step
    (Ewm.CovState (6752 / 255) (36269066 / 65025) (255 / 128)
       (21845 / 16384) (255 / 128)).
  eval_std_out (1 / 2). eval_std_out (5 / 14). eval_std_out (93 / 70).
  eval_std_out (197 / 310). eval_std_out (997 / 1302).
  eval_std_out (2437 / 5334). eval_std_out (18134533 / 21590).
  reflexivity.
Qed.

Lemma spike_compute_pct_b (user : Z) :
  compute_pct_b (as_float spike_counts) 3 3 user = Ok (spike_rows user).
Proof.
  unfold compute_pct_b, ewm_mean, ewm_std.
  rewrite get_center_of_mass_ok by lra. cbn [bind].
  change (map snd (as_float spike_counts)) with spike_values.
  rewrite spike_mean, spike_std. reflexivity.
Qed.

Lemma le_mul_sqrt (a K v : R) :
  0 <= K -> 0 <= v -> a <= 0 \/ a * a <= K * K * v -> a <= sqrt v * K.
Proof.
  intros HK Hv H.
  pose proof (sqrt_pos v) as Hs. pose proof (sqrt_sqrt v Hv) as Hss.
  destruct H as [H|H]; [nra|].
  destruct (Rle_dec a (sqrt v * K)) as [Hle|Hgt]; [assumption|].
  exfalso. assert (sqrt v * K < a) by lra.
  assert (0 <= sqrt v * K) by nra.
  assert ((sqrt v * K) * (sqrt v * K) < a * a) by nra.
  nra.
Qed.

Lemma band_row_inside d x m sd K user :
  0 < sd -> 0 < K -> x <= m + sd * K ->
  fgt (pct_b (band_row d x (Fin m) (Fin sd) K user)) (Fin 1) = false
  /\ fle (pct_b (band_row d x (Fin m) (Fin sd) K user)) (Fin 1) = true.
Proof.
  intros Hsd HK Hx.
  assert (Hw : 0 < sd * K) by nra.
  rewrite band_row_Fin_pct_b by lra.
  assert (Hp : (x - (m - sd * K)) / (m + sd * K - (m - sd * K)) <= 1).
  { apply (Rmult_le_reg_r (m + sd * K - (m - sd * K))); [lra|].
    unfold Rdiv. rewrite Rmult_assoc, Rinv_l by lra. lra. }
  cbn [fgt fle]. rewrite (Rltb_ge _ _ Hp). split; reflexivity.
Qed.

Lemma band_row_inside_sqrt d x m v K user :
  0 < v -> 0 < K ->
  x - m <= 0 \/ (x - m) * (x - m) <= K * K * v ->
  fgt (pct_b (band_row d x (Fin m) (Fin (sqrt v)) K user)) (Fin 1) = false
  /\ fle (pct_b (band_row d x (Fin m) (Fin (sqrt v)) K user)) (Fin 1) = true.
Proof.
  intros Hv HK H. apply band_row_inside; [now apply sqrt_lt_R0 | assumption |].
  pose proof (le_mul_sqrt (x - m) K v) as Hle. lra.
Qed.

Lemma spike_rows_inside (user : Z) (t : nat) (r : BandRow) :
  (1 <= t)%nat -> nth_error (spike_rows user) t = Some r ->
  fgt (pct_b r) (Fin 1) = false /\ fle (pct_b r) (Fin 1) = true.
Proof.
  intros Ht Hn. unfold spike_rows in Hn.
  do 8 (destruct t as [|t]; [try lia; injection Hn as <-;
        apply band_row_inside_sqrt; lra|]; cbn [nth_error] in Hn).
  destruct t; discriminate.
Qed.

Lemma spike_rows_first (user : Z) (r : BandRow) :
  nth_error (spike_rows user) 0 = Some r -> pct_b r = NaN.
Proof. intros [= <-]. reflexivity. Qed.

Lemma spike_rows_none_above (user : Z) :
  above_upper_band (spike_rows user) = [].
Proof.
  unfold above_upper_band.
  assert (H : forall r, In r (spike_rows user) ->
            fgt (pct_b r) (Fin 1) = false).
  { intros r Hin. apply In_nth_error in Hin. destruct Hin as (t & Hn).
    destruct t as [|t].
    - rewrite (spike_rows_first _ _ Hn). reflexivity.
    - apply (spike_rows_inside user (S t) r); [lia | assumption]. }
  induction (spike_rows user) as [|r rows IH]; [reflexivity|].
  cbn [filter]. rewrite (H r (or_introl eq_refl)).
  apply IH. intros r' Hin. apply H. now right.
Qed.

Lemma spike_log_counts : one_user_df_prep spike_log 1 = spike_counts.
Proof. vm_compute. reflexivity. Qed.

Lemma spike_find : find_anomalies spike_log 1 3 3 = Ok [].
Proof.
  unfold find_anomalies. rewrite spike_log_counts, spike_compute_pct_b.
  cbn [bind]. now rewrite spike_rows_none_above.
Qed.

Lemma lt_sqrt (a v : R) : 0 <= a -> a * a < v -> a < sqrt v.
Proof.
  intros Ha H.
  assert (Hv : 0 <= v) by nra.
  pose proof (sqrt_pos v) as Hs. pose proof (sqrt_sqrt v Hv) as Hss.
  destruct (Rlt_dec a (sqrt v)) as [Hlt|Hge]; [assumption|].
  exfalso. assert (sqrt v * sqrt v <= a * a) by nra. lra.
Qed.

Lemma Rdiv_lt_bound (a b c : R) : 0 < b -> a < c * b -> a / b < c.
Proof.
  intros Hb H. apply (Rmult_lt_reg_r b); [assumption|].
  unfold Rdiv. rewrite Rmult_assoc, Rinv_l by lra. lra.
Qed.

(** The spike is itself part of the weighted standard deviation of its
    day, which puts it well inside the band. *)
Lemma spike_eighth_pct_b (user : Z) :
  exists p,
    pct_b (band_row (7 * day_ns) 50 (Fin (6752 / 255))
             (Fin (sqrt (18134533 / 21590))) 3 user) = Fin p
    /\ p < 2 / 3.
Proof.
  assert (Hs : 50 - 6752 / 255 < sqrt (18134533 / 21590))
    by (apply lt_sqrt; lra).
  eexists; split; [apply band_row_Fin_pct_b; lra|].
  apply Rdiv_lt_bound; lra.
Qed.

(** C1, as amended: on the counts [2,3,2,4,3,2,3,50] with span 3 and
    K = 3 the first row has no [pct_b], each of the rows two to eight has
    [pct_b <= 1] (the eighth, of value 50, has [pct_b < 2/3]), and no row
    is returned as an anomaly. *)
Theorem spike_scenario_reports_nothing :
  one_user_df_prep spike_log 1 = spike_counts
  /\ exists rows,
       compute_pct_b (as_float spike_counts) 3 3 1 = Ok rows
       /\ length rows = 8%nat
       /\ (forall r, nth_error rows 0 = Some r -> pct_b r = NaN)
       /\ (forall t r, (1 <= t)%nat -> nth_error rows t = Some r ->
             fle (pct_b r) (Fin 1) = true)
       /\ (forall r, nth_error rows 7 = Some r ->
             pages_one_user r = 50
             /\ exists p, pct_b r = Fin p /\ p < 2 / 3)
       /\ find_anomalies spike_log 1 3 3 = Ok [].
Proof.
  split; [apply spike_log_counts|].
  exists (spike_rows 1).
  split; [apply spike_compute_pct_b|].
  split; [reflexivity|].
  split; [apply spike_rows_first|].
  split; [intros t r Ht Hn; now apply (spike_rows_inside 1 t r)|].
  split; [|apply spike_find].
  intros r [= <-]. split; [reflexivity | apply spike_eighth_pct_b].
Qed.

(** C1, counterexample: the eighth row, of value 50, does not have
    [pct_b > 1], and the pipeline returns no anomaly. *)
Lemma spike_eighth_not_reported :
  one_user_df_prep spike_log 1 = spike_counts
  /\ exists rows r,
       compute_pct_b (as_float spike_counts) 3 3 1 = Ok rows
       /\ nth_error rows 7 = Some r
       /\ pages_one_user r = 50
       /\ fgt (pct_b r) (Fin 1) = false
       /\ find_anomalies spike_log 1 3 3 = Ok [].
Proof.
  split; [apply spike_log_counts|].
  exists (spike_rows 1).
  eexists; split; [apply spike_compute_pct_b|].
  split; [reflexivity|]. split; [reflexivity|].
  split; [|apply spike_find].
  apply (spike_rows_inside 1 7); [lia | reflexivity].
Qed.

(** ** Zero-width bands *)

Section ZeroStd.

Variable com : R.
Hypothesis Hcom : 0 <= com.

Lemma std_zero_value_is_mean_step st cur :
  wt_inv st ->
  Ewm.zsqrt (Ewm.cov_out (Ewm.cov_step com st cur)) = Fin 0 ->
  Ewm.mean_x (Ewm.cov_step com st cur) = cur.
Proof.
  intros Hinv H.
  pose proof (wt_inv_step com Hcom st cur Hinv) as (Ho' & Hs' & Hs2' & Hc').
  pose proof (cov_step_cov com st cur) as Hcov.
  destruct Hinv as (Ho & Hs & Hs2 & Hc).
  pose proof (old_wt_factor_range com Hcom) as [Hq _].
  remember (Ewm.cov_step com st cur) as st' eqn:Est. clear Est.
  set (q := Ewm.old_wt_factor com) in *.
  unfold Ewm.cov_out in H.
  destruct (Rltb 0 _) eqn:Hden; [|discriminate]. Rbool.
  set (num := Ewm.sum_wt st' * Ewm.sum_wt st') in *.
  set (den := num - Ewm.sum_wt2 st') in *.
  assert (Hnum : 0 < num) by (unfold num; nra).
  assert (Hf : 0 < num / den)
    by (apply Rmult_lt_0_compat; [|apply Rinv_0_lt_compat]; assumption).
  assert (Hv : 0 <= num / den * Ewm.cov st') by nra.
  rewrite zsqrt_Fin in H by assumption. injection H as H.
  apply sqrt_eq_0 in H; [|assumption].
  assert (Hc0 : Ewm.cov st' = 0)
    by (apply Rmult_integral in H; destruct H; lra).
  rewrite Hc0 in Hcov.
  assert (Hd : 0 < Ewm.old_wt st * q + 1) by nra.
  set (d1 := Ewm.mean_x st - Ewm.mean_x st') in *.
  set (d2 := cur - Ewm.mean_x st') in *.
  assert (Hn : Ewm.old_wt st * q * (Ewm.cov st + d1 * d1) + d2 * d2 = 0).
  { apply (Rmult_eq_reg_r (/ (Ewm.old_wt st * q + 1))).
    - rewrite Rmult_0_l. symmetry. exact Hcov.
    - apply Rinv_neq_0_compat; lra. }
  assert (H1 : 0 <= Ewm.old_wt st * q * (Ewm.cov st + d1 * d1)).
  { apply Rmult_le_pos; [nra|]. pose proof (Rle_0_sqr d1) as Hsq.
    unfold Rsqr in Hsq. lra. }
  assert (H2 : d2 * d2 = 0).
  { pose proof (Rle_0_sqr d2) as Hsq. unfold Rsqr in Hsq. lra. }
  apply Rmult_integral in H2. unfold d2 in H2. destruct H2; lra.
Qed.

Lemma mean_cov_step_agree mst cst cur :
  0 <= Ewm.old_wt cst ->
  Ewm.weighted mst = Ewm.mean_x cst ->
  Ewm.m_old_wt mst = Ewm.old_wt cst ->
  Ewm.weighted (Ewm.mean_step com mst cur)
    = Ewm.mean_x (Ewm.cov_step com cst cur)
  /\ Ewm.m_old_wt (Ewm.mean_step com mst cur)
     = Ewm.old_wt (Ewm.cov_step com cst cur).
Proof.
  intros Ho Hw Hwt. split.
  - rewrite mean_step_weighted, cov_step_mean by (try assumption; lra).
    now rewrite Hw, Hwt.
  - unfold Ewm.mean_step, Ewm.cov_step; cbn [Ewm.m_old_wt Ewm.old_wt].
    now rewrite Hwt.
Qed.

Lemma std_zero_value_is_mean_loop rest : forall mst cst t x,
  wt_inv cst ->
  Ewm.weighted mst = Ewm.mean_x cst ->
  Ewm.m_old_wt mst = Ewm.old_wt cst ->
  nth_error (map Ewm.zsqrt (Ewm.var_loop com cst rest)) t = Some (Fin 0) ->
  nth_error rest t = Some x ->
  nth_error (Ewm.mean_loop com mst rest) t = Some (Fin x).
Proof.
  induction rest as [|cur rest IH]; intros mst cst t x Hinv Hw Hwt Hsd Hx;
    [destruct t; discriminate|].
  assert (Ho : 0 <= Ewm.old_wt cst) by (destruct Hinv; lra).
  destruct (mean_cov_step_agree mst cst cur Ho Hw Hwt) as [Hw' Hwt'].
  destruct t as [|t]; cbn [Ewm.var_loop Ewm.mean_loop map nth_error] in *.
  - injection Hx as <-. injection Hsd as Hsd.
    rewrite Hw'. now rewrite (std_zero_value_is_mean_step cst cur Hinv Hsd).
  - apply (IH _ (Ewm.cov_step com cst cur)); try assumption.
    now apply wt_inv_step.
Qed.

Lemma std_zero_value_is_mean xs t x :
  nth_error (Ewm.std com xs) t = Some (Fin 0) ->
  nth_error xs t = Some x ->
  nth_error (Ewm.mean com xs) t = Some (Fin x).
Proof.
  destruct xs as [|x0 rest]; [destruct t; discriminate|].
  unfold Ewm.std. destruct t as [|t]; cbn [Ewm.var Ewm.mean map nth_error].
  - discriminate.
  - apply std_zero_value_is_mean_loop; try reflexivity. apply wt_inv_init.
Qed.

End ZeroStd.

Lemma above_upper_band_In rows r :
  In r (above_upper_band rows) <-> In r rows /\ fgt (pct_b r) (Fin 1) = true.
Proof. unfold above_upper_band. apply filter_In. Qed.


(** C5: a row of the scored table is returned as an anomaly exactly when
    its [pct_b] is defined and strictly above 1; a row with [pct_b < 0]
    is not returned. *)
Theorem anomaly_iff_above_threshold (df : list LogRow) (user : Z)
    (span weight : R) (my_df : list BandRow) :
  compute_pct_b (as_float (one_user_df_prep df user)) span weight user
    = Ok my_df ->
  exists anomalies,
    find_anomalies df user span weight = Ok anomalies
    /\ (forall r, In r anomalies <->
          In r my_df /\ is_defined (pct_b r) /\ fgt (pct_b r) (Fin 1) = true)
    /\ (forall r, In r my_df -> flt (pct_b r) (Fin 0) = true ->
          ~ In r anomalies).
Proof.
  intros Hc. exists (above_upper_band my_df).
  split; [unfold find_anomalies; now rewrite Hc|].
  split.
  - intros r. rewrite above_upper_band_In. split.
    + intros [Hin Hgt]. repeat split; try assumption.
      intros E; rewrite E in Hgt; discriminate.
    + intros (Hin & _ & Hgt). now split.
  - intros r _ Hlt Hin. apply above_upper_band_In in Hin.
    destruct Hin as [_ Hgt]. unfold flt in Hlt.
    destruct (pct_b r) as [| | |p]; cbn in Hlt, Hgt; try discriminate.
    Rbool. lra.
Qed.

(** C8, as amended: a span below 1 makes the pipeline fail with the
    estimator's [ValueError]; with a span of at least 1 every multiplier,
    also [K <= 0], is accepted: the series is scored and the rows above
    the upper band are returned. *)
Theorem span_checked_multiplier_not (df : list LogRow) (user : Z)
    (span weight : R) :
  (span < 1 /\ find_anomalies df user span weight = ValueError)
  \/ (1 <= span
      /\ exists my_df,
           compute_pct_b (as_float (one_user_df_prep df user)) span weight
             user = Ok my_df
           /\ length my_df = length (one_user_df_prep df user)
           /\ find_anomalies df user span weight
              = Ok (above_upper_band my_df)).
Proof.
  destruct (Rlt_dec span 1) as [Hlt|Hge].
  - left. split; [assumption|]. unfold find_anomalies.
    now rewrite compute_pct_b_error.
  - right. split; [lra|].
    destruct (compute_pct_b_ok (as_float (one_user_df_prep df user))
                span weight user) as (rows & Hc & Hlen); [lra|].
    exists rows. split; [assumption|].
    split; [rewrite Hlen; unfold as_float; apply length_map|].
    unfold find_anomalies. now rewrite Hc.
Qed.

(** C8, counterexample: the multipliers 0 and -3 are not rejected; the
    eight days of the series are scored and the call returns. *)
Lemma nonpositive_multiplier_accepted :
  (exists my_df,
     compute_pct_b (as_float (one_user_df_prep spike_log 1)) 3 0 1 = Ok my_df
     /\ length my_df = 8%nat
     /\ find_anomalies spike_log 1 3 0 = Ok (above_upper_band my_df))
  /\ (exists my_df,
        compute_pct_b (as_float (one_user_df_prep spike_log 1)) 3 (-3) 1
          = Ok my_df
        /\ length my_df = 8%nat
        /\ find_anomalies spike_log 1 3 (-3) = Ok (above_upper_band my_df)).
Proof.
  split.
  - destruct (compute_pct_b_ok (as_float (one_user_df_prep spike_log 1))
                3 0 1) as (rows & Hc & Hl); [lra|].
    exists rows. split; [assumption|].
    split; [rewrite Hl, spike_log_counts; reflexivity|].
    unfold find_anomalies. now rewrite Hc.
  - destruct (compute_pct_b_ok (as_float (one_user_df_prep spike_log 1))
                3 (-3) 1) as (rows & Hc & Hl); [lra|].
    exists rows. split; [assumption|].
    split; [rewrite Hl, spike_log_counts; reflexivity|].
    unfold find_anomalies. now rewrite Hc.
Qed.

(** ** Daily aggregation *)

Open Scope Z_scope.

Lemma fold_right_min_spec (d : Z) (ds : list Z) :
  In (fold_right Z.min d ds) (d :: ds)
  /\ forall x, In x (d :: ds) -> fold_right Z.min d ds <= x.
Proof.
  induction ds as [|y ds [IHin IHle]]; cbn [fold_right].
  - split; [now left | intros x [<-|[]]; lia].
  - split.
    + destruct (Z.min_spec y (fold_right Z.min d ds)) as [[_ ->]|[_ ->]].
      * right; now left.
      * destruct IHin as [<-|Hin]; [now left | right; now right].
    + intros x [<-|[<-|Hin]].
      * pose proof (IHle d (or_introl eq_refl)). lia.
      * lia.
      * pose proof (IHle x (or_intror Hin)). lia.
Qed.

Lemma fold_right_max_spec (d : Z) (ds : list Z) :
  In (fold_right Z.max d ds) (d :: ds)
  /\ forall x, In x (d :: ds) -> x <= fold_right Z.max d ds.
Proof.
  induction ds as [|y ds [IHin IHle]]; cbn [fold_right].
  - split; [now left | intros x [<-|[]]; lia].
  - split.
    + destruct (Z.max_spec y (fold_right Z.max d ds)) as [[_ ->]|[_ ->]].
      * destruct IHin as [<-|Hin]; [now left | right; now right].
      * right; now left.
    + intros x [<-|[<-|Hin]].
      * pose proof (IHle d (or_introl eq_refl)). lia.
      * lia.
      * pose proof (IHle x (or_intror Hin)). lia.
Qed.

Lemma count_in_bin_views (df : list LogRow) (user day : Z) :
  count_in_bin
    (map (fun r => (date r, endpoint r))
       (filter (fun r => user_id r =? user) df)) day
  = views_on df user day.
Proof.
  unfold count_in_bin, views_on. f_equal.
  induction df as [|r df IH]; [reflexivity|].
  cbn [filter]. destruct (user_id r =? user); cbn [map filter fst snd andb].
  - destruct (day_of (date r) =? day); cbn [andb];
      [destruct (notnull (endpoint r))|]; cbn [length]; now rewrite IH.
  - exact IH.
Qed.

Lemma one_user_df_prep_eq (df : list LogRow) (user d : Z) (ds : list Z) :
  user_days df user = d :: ds ->
  one_user_df_prep df user
  = map (fun k => let day := fold_right Z.min d ds + Z.of_nat k in
                  (day * day_ns, views_on df user day))
        (seq 0 (Z.to_nat (fold_right Z.max d ds - fold_right Z.min d ds + 1))).
Proof.
  intros Hd. unfold one_user_df_prep, resample_d_count.
  rewrite map_map. cbn [fst]. fold (user_days df user). rewrite Hd.
  apply map_ext. intros k. cbv zeta. now rewrite count_in_bin_views.
Qed.

Lemma events_on_nil_views (df : list LogRow) (user day : Z) :
  events_on df user day = [] -> views_on df user day = 0.
Proof.
  unfold events_on, views_on. intros H.
  replace (filter _ df) with (@nil LogRow); [reflexivity|].
  symmetry. induction df as [|r df IH]; [reflexivity|].
  cbn [filter] in *.
  destruct ((user_id r =? user) && (day_of (date r) =? day));
    [discriminate|]. cbn [andb]. now apply IH.
Qed.

(** C7: for a user with at least one row in the log, the daily series
    has one entry per day from the first to the last day on which the
    user is seen, in order and without a gap, each with the number of the
    user's page views that day, which is 0 on a day without rows. *)
Theorem daily_counts_contiguous (df : list LogRow) (user d : Z)
    (ds : list Z) :
  user_days df user = d :: ds ->
  let first := fold_right Z.min d ds in
  let last := fold_right Z.max d ds in
  (In first (d :: ds) /\ In last (d :: ds)
   /\ forall x, In x (d :: ds) -> first <= x <= last)
  /\ one_user_df_prep df user
     = map (fun k => let day := first + Z.of_nat k in
                     (day * day_ns, views_on df user day))
           (seq 0 (Z.to_nat (last - first + 1)))
  /\ (forall day, first <= day <= last ->
        In (day * day_ns, views_on df user day) (one_user_df_prep df user))
  /\ (forall day, events_on df user day = [] -> views_on df user day = 0).
Proof.
  intros Hd first last.
  destruct (fold_right_min_spec d ds) as [Hmin_in Hmin_le].
  destruct (fold_right_max_spec d ds) as [Hmax_in Hmax_le].
  split.
  { split; [assumption|]. split; [assumption|].
    intros x Hx. split; [now apply Hmin_le | now apply Hmax_le]. }
  split; [now apply one_user_df_prep_eq|].
  split; [|intros day; apply events_on_nil_views].
  intros day Hday. rewrite (one_user_df_prep_eq _ _ _ _ Hd).
  apply in_map_iff. exists (Z.to_nat (day - first)).
  fold first last. cbv zeta.
  replace (first + Z.of_nat (Z.to_nat (day - first))) with day by lia.
  split; [reflexivity|]. apply in_seq. lia.
Qed.

Lemma gap_log_counts :
  one_user_df_prep gap_log 1
  = [(0 * day_ns, 1); (1 * day_ns, 0); (2 * day_ns, 0); (3 * day_ns, 0);
     (4 * day_ns, 1)].
Proof. vm_compute. reflexivity. Qed.

Lemma daily_counts_contiguous_witness :
  let first := fold_right Z.min 4 [0] in
  let last := fold_right Z.max 4 [0] in
  (In first [4; 0] /\ In last [4; 0]
   /\ forall x, In x [4; 0] -> first <= x <= last)
  /\ one_user_df_prep gap_log 1
     = map (fun k => let day := first + Z.of_nat k in
                     (day * day_ns, views_on gap_log 1 day))
           (seq 0 (Z.to_nat (last - first + 1)))
  /\ (forall day, first <= day <= last ->
        In (day * day_ns, views_on gap_log 1 day) (one_user_df_prep gap_log 1))
  /\ (forall day, events_on gap_log 1 day = [] -> views_on gap_log 1 day = 0).
Proof.
  apply (daily_counts_contiguous gap_log 1 4 [0]). vm_compute. reflexivity.
Defined.

Close Scope Z_scope.

(** ** Worked series *)

Lemma level_mean :
  Ewm.mean ((3 - 1) / 2) [1; 4; 3] = [Fin 1; Fin 3; Fin 3].
Proof.
  cbn [Ewm.mean Ewm.mean_loop].
  eval_mean_step (Ewm.MeanState 3 (3 / 2)).
  eval_mean_step (Ewm.MeanState 3 (7 / 4)).
  reflexivity.
Qed.

Lemma level_std :
  Ewm.std ((3 - 1) / 2) [1; 4; 3]
  = [NaN; Fin (sqrt (9 / 2)); Fin (sqrt (3 / 2))].
Proof.
  unfold Ewm.std. cbn [Ewm.var Ewm.var_loop map].
  eval_cov_step (Ewm.CovState 3 2 (3 / 2) (5 / 4) (3 / 2)).
  eval_cov_step (Ewm.CovState 3 (6 / 7) (7 / 4) (21 / 16) (7 / 4)).
  eval_std_out (9 / 2). eval_std_out (3 / 2).
  reflexivity.
Qed.

Lemma level_compute_pct_b (weight : R) (user : Z) :
  compute_pct_b level_series 3 weight user = Ok (level_rows weight user).
Proof.
  unfold compute_pct_b, ewm_mean, ewm_std.
  rewrite get_center_of_mass_ok by lra. cbn [bind].
  change (map snd level_series) with [1; 4; 3].
  rewrite level_mean, level_std. reflexivity.
Qed.

Lemma constant_mean : Ewm.mean ((3 - 1) / 2) [5; 5] = [Fin 5; Fin 5].
Proof.
  cbn [Ewm.mean Ewm.mean_loop].
  eval_mean_step (Ewm.MeanState 5 (3 / 2)).
  reflexivity.
Qed.

Lemma constant_std : Ewm.std ((3 - 1) / 2) [5; 5] = [NaN; Fin 0].
Proof.
  unfold Ewm.std. cbn [Ewm.var Ewm.var_loop map].
  eval_cov_step (Ewm.CovState 5 0 (3 / 2) (5 / 4) (3 / 2)).
  eval_std_out 0. now rewrite sqrt_0.
Qed.

Lemma constant_compute_pct_b (weight : R) (user : Z) :
  compute_pct_b constant_series 3 weight user
  = Ok (constant_rows weight user).
Proof.
  unfold compute_pct_b, ewm_mean, ewm_std.
  rewrite get_center_of_mass_ok by lra. cbn [bind].
  change (map snd constant_series) with [5; 5].
  rewrite constant_mean, constant_std. reflexivity.
Qed.

Lemma sqrt_pos_lt (v : R) : 0 < v -> 0 < sqrt v.
Proof. apply sqrt_lt_R0. Qed.






Lemma anomaly_iff_above_threshold_witness :
  exists anomalies,
    find_anomalies spike_log 1 3 3 = Ok anomalies
    /\ (forall r, In r anomalies <->
          In r (spike_rows 1) /\ is_defined (pct_b r)
          /\ fgt (pct_b r) (Fin 1) = true)
    /\ (forall r, In r (spike_rows 1) -> flt (pct_b r) (Fin 0) = true ->
          ~ In r anomalies).
Proof.
  apply (anomaly_iff_above_threshold spike_log 1 3 3 (spike_rows 1)).
  rewrite spike_log_counts. apply spike_compute_pct_b.
Defined.

Lemma Rdiv_le_1 (a b : R) : 0 < b -> a <= b -> a / b <= 1.
Proof.
  intros Hb H. apply (Rmult_le_reg_r b); [assumption|].
  unfold Rdiv. rewrite Rmult_assoc, Rinv_l by lra. lra.
Qed.

Lemma Rdiv_gt_1 (a b : R) : 0 < b -> b < a -> 1 < a / b.
Proof.
  intros Hb H. apply (Rmult_lt_reg_r b); [assumption|].
  unfold Rdiv. rewrite Rmult_assoc, Rinv_l by lra. lra.
Qed.

(** With a narrow band the second row of 1, 4, 3 is returned. *)
Lemma level_quarter_reported :
  above_upper_band (level_rows (1 / 4) 1)
  = [band_row (1 * day_ns) 4 (Fin 3) (Fin (sqrt (9 / 2))) (1 / 4) 1].
Proof.
  pose proof (sqrt_pos_lt (9 / 2)) as H1. pose proof (sqrt_sqrt (9 / 2)) as H2.
  pose proof (sqrt_pos_lt (3 / 2)) as H3.
  assert (H4 : sqrt (9 / 2) < 4) by nra.
  unfold above_upper_band, level_rows. cbn [filter].
  rewrite (band_row_Fin_pct_b _ 4) by lra.
  rewrite (band_row_Fin_pct_b _ 3) by lra.
  change (pct_b (band_row (0 * day_ns) 1 (Fin 1) NaN (1 / 4) 1)) with NaN.
  cbn [fgt].
  rewrite (Rltb_lt 1) by (apply Rdiv_gt_1; lra).
  rewrite (Rltb_ge 1) by (apply Rdiv_le_1; lra).
  reflexivity.
Qed.

(** With the multiplier 0 the band has no width: a value above the mean
    gets an infinite [pct_b] and is returned. *)
Lemma zero_multiplier_reports_infinite_pct_b :
  above_upper_band (level_rows 0 1)
  = [band_row (1 * day_ns) 4 (Fin 3) (Fin (sqrt (9 / 2))) 0 1]
  /\ pct_b (band_row (1 * day_ns) 4 (Fin 3) (Fin (sqrt (9 / 2))) 0 1) = PInf.
Proof.
  assert (H1 : pct_b (band_row (1 * day_ns) 4 (Fin 3) (Fin (sqrt (9 / 2))) 0 1)
               = PInf).
  { rewrite band_row_Fin_pct_b_zero_width by lra.
    unfold inf_of_sign. rewrite Rltb_lt by lra. reflexivity. }
  assert (H2 : pct_b (band_row (2 * day_ns) 3 (Fin 3) (Fin (sqrt (3 / 2))) 0 1)
               = NaN).
  { rewrite band_row_Fin_pct_b_zero_width by lra.
    unfold inf_of_sign. rewrite !Rltb_ge by lra. reflexivity. }
  split; [|exact H1].
  unfold above_upper_band, level_rows. cbn [filter].
  rewrite H1, H2. reflexivity.
Qed.

(** ** The mean as a ratio of weighted sums *)

Lemma weighted_total_shift (q : R) (past : list R) : forall i,
  weighted_total q (S i) past = q * weighted_total q i past.
Proof.
  induction past as [|x older IH]; intros i; cbn [weighted_total];
    [ring|].
  rewrite IH. cbn [pow]. ring.
Qed.

Lemma weighted_total_cons (q x : R) (older : list R) :
  weighted_total q 0 (x :: older) = x + q * weighted_total q 0 older.
Proof.
  cbn [weighted_total]. rewrite weighted_total_shift. cbn [pow]. ring.
Qed.

Section ClosedForm.

Variable com : R.
Hypothesis Hcom : 0 <= com.

Let q := Ewm.old_wt_factor com.

Lemma mean_loop_closed_form (rest : list R) : forall st past t,
  1 <= Ewm.m_old_wt st ->
  Ewm.m_old_wt st = weighted_total q 0 (map (fun _ => 1) past) ->
  Ewm.weighted st * Ewm.m_old_wt st = weighted_total q 0 past ->
  (t < length rest)%nat ->
  nth_error (Ewm.mean_loop com st rest) t
  = Some (Fin (weighted_total q 0 (rev (firstn (S t) rest) ++ past)
               / weighted_total q 0
                   (map (fun _ => 1) (rev (firstn (S t) rest) ++ past)))).
Proof.
  induction rest as [|cur rest IH]; intros st past t Ho Hw Hs Ht;
    [simpl in Ht; lia|].
  pose proof (old_wt_factor_range com Hcom) as [Hq _]; fold q in Hq.
  assert (Ho0 : 0 <= Ewm.m_old_wt st) by lra.
  pose proof (mean_step_weighted com Hcom st cur Ho0) as Hstep.
  pose proof (mean_step_old_wt com st cur) as Hwt. fold q in Hstep, Hwt.
  assert (Hd : 0 < Ewm.m_old_wt st * q + 1) by nra.
  assert (Hw' : Ewm.m_old_wt (Ewm.mean_step com st cur)
                = weighted_total q 0 (map (fun _ => 1) (cur :: past))).
  { rewrite Hwt. cbn [map]. rewrite weighted_total_cons, <- Hw. ring. }
  assert (Hs' : Ewm.weighted (Ewm.mean_step com st cur)
                * Ewm.m_old_wt (Ewm.mean_step com st cur)
                = weighted_total q 0 (cur :: past)).
  { rewrite Hstep, Hwt, weighted_total_cons, <- Hs. field. lra. }
  destruct t as [|t].
  - cbn [Ewm.mean_loop nth_error firstn rev app]. do 2 f_equal.
    rewrite <- Hs', <- Hw'. field. rewrite Hwt. lra.
  - cbn [Ewm.mean_loop nth_error].
    rewrite (IH _ (cur :: past) t); try assumption; [| nra | simpl in Ht; lia].
    change (firstn (S (S t)) (cur :: rest)) with (cur :: firstn (S t) rest).
    cbn [rev]. now rewrite <- app_assoc.
Qed.

Lemma mean_closed_form (xs : list R) (t : nat) :
  (t < length xs)%nat ->
  nth_error (Ewm.mean com xs) t
  = Some (Fin (weighted_mean_spec (Ewm.alpha com) xs t)).
Proof.
  intros Ht. unfold weighted_mean_spec. fold (Ewm.old_wt_factor com). fold q.
  destruct xs as [|x0 rest]; [simpl in Ht; lia|].
  destruct t as [|t].
  - cbn. do 2 f_equal. field.
  - cbn [Ewm.mean nth_error].
    rewrite (mean_loop_closed_form rest _ [x0] t);
      [| cbn; lra | cbn; ring | cbn; ring | simpl in Ht; lia].
    change (firstn (S (S t)) (x0 :: rest)) with (x0 :: firstn (S t) rest).
    reflexivity.
Qed.

End ClosedForm.

Lemma alpha_span (span : R) :
  1 <= span -> Ewm.alpha ((span - 1) / 2) = 2 / (span + 1).
Proof. intros H. unfold Ewm.alpha. field. lra. Qed.


(** ** The variance as a ratio of weighted sums *)

Lemma weighted_total_sq_dev (q c : R) (l : list R) : forall i,
  weighted_total q i (sq_dev c l)
  = weighted_total q i (map (fun x => x * x) l)
    - 2 * c * weighted_total q i l
    + c * c * weighted_total q i (ones l).
Proof.
  induction l as [|x l IH]; intros i; cbn [sq_dev ones map weighted_total];
    [ring|].
  fold (sq_dev c l). fold (ones l). rewrite IH. ring.
Qed.

Section VarClosedForm.

Variable com : R.
Hypothesis Hcom : 0 <= com.

Let q := Ewm.old_wt_factor com.

Lemma cf_inv_init (x0 : R) : cf_inv q (Ewm.cov_init x0) [x0].
Proof. unfold cf_inv; cbn. repeat split; try ring. lra. Qed.

Lemma cf_inv_step st past cur :
  cf_inv q st past -> cf_inv q (Ewm.cov_step com st cur) (cur :: past).
Proof.
  intros (Ho & Hw & Hs & Hs2 & Hm & Hc).
  pose proof (old_wt_factor_range com Hcom) as [Hq _]; fold q in Hq.
  assert (Ho0 : 0 <= Ewm.old_wt st) by lra.
  pose proof (cov_step_mean com Hcom st cur Ho0) as Hmean.
  pose proof (cov_step_cov com st cur) as Hcov. fold q in Hmean, Hcov.
  assert (Hd : 0 < Ewm.old_wt st * q + 1) by nra.
  assert (Hwt : Ewm.old_wt (Ewm.cov_step com st cur)
                = Ewm.old_wt st * q + 1) by reflexivity.
  assert (Hst : Ewm.sum_wt (Ewm.cov_step com st cur)
                = Ewm.sum_wt st * q + 1) by reflexivity.
  assert (Hst2 : Ewm.sum_wt2 (Ewm.cov_step com st cur)
                 = Ewm.sum_wt2 st * (q * q) + 1)
    by (unfold Ewm.cov_step, Ewm.new_wt; cbn [Ewm.sum_wt2]; fold q; ring).
  rewrite weighted_total_sq_dev in Hc.
  remember (Ewm.cov_step com st cur) as st' eqn:Est. clear Est.
  unfold cf_inv. rewrite weighted_total_sq_dev.
  cbn [ones map]. fold (ones past).
  rewrite !weighted_total_cons.
  rewrite Hwt, Hst, Hst2, <- Hs2, Hs, <- Hw.
  remember (Ewm.mean_x st') as m' eqn:Em. clear Em.
  assert (Hm' : m' * (Ewm.old_wt st * q + 1)
                = Ewm.old_wt st * q * Ewm.mean_x st + cur)
    by (rewrite Hmean; field; lra).
  assert (Hc' : Ewm.cov st' * (Ewm.old_wt st * q + 1)
                = Ewm.old_wt st * q
                  * (Ewm.cov st + (Ewm.mean_x st - m') * (Ewm.mean_x st - m'))
                  + (cur - m') * (cur - m'))
    by (rewrite Hcov; field; lra).
  split; [nra|]. split; [ring|]. split; [ring|]. split; [ring|].
  split.
  - rewrite Hm', <- Hm. ring.
  - rewrite Hc'. rewrite <- Hw in Hc.
    set (T2 := weighted_total q 0 (map (fun x => x * x) past)) in *.
    set (T1 := weighted_total q 0 past) in *.
    set (o := Ewm.old_wt st) in *. set (m := Ewm.mean_x st) in *.
    set (c := Ewm.cov st) in *.
    replace T2 with (c * o + 2 * m * T1 - m * m * o) by lra.
    rewrite <- Hm. ring.
Qed.

Lemma cov_out_closed_form st past :
  cf_inv q st past -> Ewm.cov_out st = var_of_past q past.
Proof.
  intros (Ho & Hw & Hs & Hs2 & Hm & Hc).
  assert (Hso : Ewm.sum_wt st = Ewm.old_wt st)
    by (rewrite Hs, Hw; reflexivity).
  unfold Ewm.cov_out, var_of_past. rewrite <- Hs2, <- Hw, <- Hm, Hso.
  replace (Ewm.mean_x st * Ewm.old_wt st / Ewm.old_wt st)
    with (Ewm.mean_x st) by (field; lra).
  rewrite <- Hc.
  replace (Ewm.cov st * Ewm.old_wt st / Ewm.old_wt st)
    with (Ewm.cov st) by (field; lra).
  reflexivity.
Qed.

Lemma var_loop_closed_form (rest : list R) : forall st past t,
  cf_inv q st past ->
  (t < length rest)%nat ->
  nth_error (Ewm.var_loop com st rest) t
  = Some (var_of_past q (rev (firstn (S t) rest) ++ past)).
Proof.
  induction rest as [|cur rest IH]; intros st past t Hinv Ht;
    [simpl in Ht; lia|].
  pose proof (cf_inv_step st past cur Hinv) as Hinv'.
  destruct t as [|t]; cbn [Ewm.var_loop nth_error].
  - cbn [firstn rev app]. f_equal. now apply cov_out_closed_form.
  - rewrite (IH _ (cur :: past) t Hinv') by (simpl in Ht; lia).
    change (firstn (S (S t)) (cur :: rest)) with (cur :: firstn (S t) rest).
    cbn [rev]. now rewrite <- app_assoc.
Qed.

Lemma var_closed_form (xs : list R) (t : nat) :
  (t < length xs)%nat ->
  nth_error (Ewm.var com xs) t
  = Some (weighted_var_spec (Ewm.alpha com) xs t).
Proof.
  intros Ht. unfold weighted_var_spec. fold (Ewm.old_wt_factor com). fold q.
  destruct xs as [|x0 rest]; [simpl in Ht; lia|].
  destruct t as [|t].
  - cbn [Ewm.var nth_error firstn rev app]. f_equal.
    unfold var_of_past. cbn. rewrite Rltb_ge; [reflexivity | lra].
  - cbn [Ewm.var nth_error].
    rewrite (var_loop_closed_form rest _ [x0] t (cf_inv_init x0))
      by (simpl in Ht; lia).
    change (firstn (S (S t)) (x0 :: rest)) with (x0 :: firstn (S t) rest).
    reflexivity.
Qed.

End VarClosedForm.


(** * Further properties *)

(** ** What the test [pct_b > 1] says about the value and the bands *)

Lemma inf_of_sign_gt_1 (x : R) :
  fgt (inf_of_sign x) (Fin 1) = true <-> 0 < x.
Proof.
  unfold inf_of_sign.
  destruct (Rltb 0 x) eqn:E1; [|destruct (Rltb x 0) eqn:E2]; Rbool; cbn;
    split; intros; try easy; try lra.
Qed.

Lemma inf_of_sign_lt_0 (x : R) :
  flt (inf_of_sign x) (Fin 0) = true <-> x < 0.
Proof.
  unfold inf_of_sign, flt.
  destruct (Rltb 0 x) eqn:E1; [|destruct (Rltb x 0) eqn:E2]; Rbool; cbn;
    split; intros; try easy; try lra.
Qed.

Lemma Rdiv_gt_1_iff (a b : R) : 0 < b -> (1 < a / b <-> b < a).
Proof.
  intros Hb. split; intros H.
  - apply (Rmult_lt_compat_r b) in H; [|assumption].
    unfold Rdiv in H. rewrite Rmult_assoc, Rinv_l in H by lra. lra.
  - now apply Rdiv_gt_1.
Qed.

Lemma Rdiv_gt_1_neg_iff (a b : R) : b < 0 -> (1 < a / b <-> a < b).
Proof.
  intros Hb.
  replace (a / b) with ((- a) / (- b)) by (field; lra).
  rewrite Rdiv_gt_1_iff by lra. lra.
Qed.

Lemma Rdiv_lt_0_iff (a b : R) : 0 < b -> (a / b < 0 <-> a < 0).
Proof.
  intros Hb. pose proof (Rinv_0_lt_compat b Hb) as Hi. unfold Rdiv.
  split; intros H; [|nra].
  destruct (Rlt_dec a 0) as [Hlt|Hge]; [assumption|]. exfalso. nra.
Qed.

(** A row with a standard deviation passes the test exactly when its
    value lies beyond [m + sd * weight], on the far side from the mean. *)
Lemma band_row_reported d x m sd weight user :
  fgt (pct_b (band_row d x (Fin m) (Fin sd) weight user)) (Fin 1) = true
  <-> (0 <= sd * weight /\ m + sd * weight < x)
      \/ (sd * weight < 0 /\ x < m + sd * weight).
Proof.
  destruct (Rtotal_order (sd * weight) 0) as [Hneg|[Hz|Hpos]].
  - rewrite band_row_Fin_pct_b by lra. cbn [fgt]. rewrite Rltb_true.
    rewrite Rdiv_gt_1_neg_iff by lra. split; [intros H; right; lra|].
    intros [[H _]|[_ H]]; lra.
  - rewrite band_row_Fin_pct_b_zero_width by assumption.
    rewrite inf_of_sign_gt_1. split; [intros H; left; lra|].
    intros [[_ H]|[H _]]; lra.
  - rewrite band_row_Fin_pct_b by lra. cbn [fgt]. rewrite Rltb_true.
    rewrite Rdiv_gt_1_iff by lra. split; [intros H; left; lra|].
    intros [[_ H]|[H _]]; lra.
Qed.

Lemma band_row_below d x m sd weight user :
  0 <= sd * weight ->
  (flt (pct_b (band_row d x (Fin m) (Fin sd) weight user)) (Fin 0) = true
   <-> x < m - sd * weight).
Proof.
  intros H. destruct H as [Hpos|Hz].
  - rewrite band_row_Fin_pct_b by lra. unfold flt; cbn [fgt].
    rewrite Rltb_true. rewrite Rdiv_lt_0_iff by lra. lra.
  - rewrite band_row_Fin_pct_b_zero_width by lra.
    rewrite inf_of_sign_lt_0. lra.
Qed.

Lemma band_row_NaN_pct_b d x m weight user :
  pct_b (band_row d x m NaN weight user) = NaN.
Proof. destruct m; reflexivity. Qed.

Lemma band_row_NaN_ub d x m weight user :
  ub (band_row d x m NaN weight user) = NaN.
Proof. destruct m; reflexivity. Qed.

(** ** How far a value can lie from the mean of its own day *)

Section Deviation.

Variable com : R.
Hypothesis Hcom : 0 <= com.

Let q := Ewm.old_wt_factor com.

Lemma old_wt_factor_times (o : R) : o <= 1 + com -> 0 <= o -> o * q <= com.
Proof.
  intros Ho Ho0. unfold q. rewrite old_wt_factor_eq by assumption.
  assert (Hp : 0 < 1 + com) by lra.
  apply (Rmult_le_reg_r (1 + com)); [assumption|].
  replace (o * (com / (1 + com)) * (1 + com)) with (o * com)
    by (field; lra).
  nra.
Qed.

Lemma cov_step_old_wt_bound st cur :
  0 <= Ewm.old_wt st -> Ewm.old_wt st <= 1 + com ->
  Ewm.old_wt (Ewm.cov_step com st cur) <= 1 + com.
Proof.
  intros Ho0 Ho.
  pose proof (old_wt_factor_times _ Ho Ho0) as H.
  unfold Ewm.cov_step, Ewm.new_wt; cbn [Ewm.old_wt]. fold q. lra.
Qed.

(** The new value enters the mean and the squared deviations of its own
    step: its squared distance to the new mean is at most the weight of
    the older values times the new variance. *)
Lemma cov_step_deviation st cur :
  wt_inv st ->
  (cur - Ewm.mean_x (Ewm.cov_step com st cur))
  * (cur - Ewm.mean_x (Ewm.cov_step com st cur))
  <= Ewm.old_wt st * q * Ewm.cov (Ewm.cov_step com st cur).
Proof.
  intros (Ho & Hs & Hs2 & Hc).
  pose proof (old_wt_factor_range com Hcom) as [Hq _]; fold q in Hq.
  assert (Ho0 : 0 <= Ewm.old_wt st) by lra.
  pose proof (cov_step_mean com Hcom st cur Ho0) as Hmean.
  pose proof (cov_step_cov com st cur) as Hcov. fold q in Hmean, Hcov.
  remember (Ewm.cov_step com st cur) as st' eqn:Est. clear Est.
  set (o := Ewm.old_wt st * q) in *.
  assert (Hoq : 0 <= o) by (unfold o; nra).
  remember (Ewm.mean_x st') as m' eqn:Em. clear Em.
  remember (Ewm.mean_x st) as m eqn:Em. clear Em.
  remember (Ewm.cov st') as c' eqn:Ec'. clear Ec'.
  remember (Ewm.cov st) as c eqn:Ec. clear Ec.
  assert (Hm' : m' * (o + 1) = o * m + cur) by (rewrite Hmean; field; lra).
  assert (Hc' : c' * (o + 1)
                = o * (c + (m - m') * (m - m')) + (cur - m') * (cur - m'))
    by (rewrite Hcov; field; lra).
  assert (Hd : cur - m' = o * (m' - m)) by lra.
  rewrite Hd.
  assert (Hsq : 0 <= (m' - m) * (m' - m))
    by (pose proof (Rle_0_sqr (m' - m)) as H; unfold Rsqr in H; exact H).
  assert (Hge : o * ((m' - m) * (m' - m)) * (o + 1) <= c' * (o + 1)).
  { rewrite Hc', Hd. nra. }
  assert (Hge' : o * ((m' - m) * (m' - m)) <= c')
    by (apply (Rmult_le_reg_r (o + 1)); lra).
  replace (o * (m' - m) * (o * (m' - m)))
    with (o * (o * ((m' - m) * (m' - m)))) by ring.
  apply Rmult_le_compat_l; assumption.
Qed.

Lemma cov_out_ge_cov st v :
  wt_inv st -> Ewm.cov_out st = Fin v -> Ewm.cov st <= v.
Proof.
  intros (Ho & Hs & Hs2 & Hc) H. unfold Ewm.cov_out in H.
  destruct (Rltb 0 _) eqn:Hden; [|discriminate]. Rbool. injection H as <-.
  set (num := Ewm.sum_wt st * Ewm.sum_wt st) in *.
  set (den := num - Ewm.sum_wt2 st) in *.
  assert (Hf : 1 <= num / den).
  { apply (Rmult_le_reg_r den); [assumption|].
    unfold Rdiv. rewrite Rmult_assoc, Rinv_l by lra. unfold den. lra. }
  nra.
Qed.

Lemma cov_out_cases st :
  Ewm.cov_out st = NaN \/ exists v, Ewm.cov_out st = Fin v.
Proof. unfold Ewm.cov_out. destruct (Rltb 0 _); eauto. Qed.

Lemma zsqrt_Fin_sq (v s : R) :
  0 <= v -> Ewm.zsqrt (Fin v) = Fin s -> 0 <= s /\ s * s = v.
Proof.
  intros Hv H. rewrite zsqrt_Fin in H by assumption. injection H as <-.
  split; [apply sqrt_pos | now apply sqrt_sqrt].
Qed.

Lemma std_step_deviation st cur s :
  wt_inv st -> Ewm.old_wt st <= 1 + com ->
  Ewm.zsqrt (Ewm.cov_out (Ewm.cov_step com st cur)) = Fin s ->
  (cur - Ewm.mean_x (Ewm.cov_step com st cur))
  * (cur - Ewm.mean_x (Ewm.cov_step com st cur))
  <= com * (s * s).
Proof.
  intros Hinv Hb H.
  pose proof (cov_step_deviation st cur Hinv) as Hdev.
  pose proof (wt_inv_step com Hcom st cur Hinv) as Hinv'.
  assert (Ho0 : 0 <= Ewm.old_wt st) by (destruct Hinv; lra).
  pose proof (old_wt_factor_times _ Hb Ho0) as Hoq.
  pose proof (old_wt_factor_range com Hcom) as [Hq _]; fold q in Hq.
  remember (Ewm.cov_step com st cur) as st' eqn:Est. clear Est.
  destruct (cov_out_cases st') as [Hout | (v & Hout)];
    rewrite Hout in H; [discriminate|].
  pose proof (cov_out_ge_cov st' v Hinv' Hout) as Hge.
  assert (Hc' : 0 <= Ewm.cov st')
    by (destruct Hinv' as (_ & _ & _ & H'); exact H').
  assert (Hv : 0 <= v) by lra.
  destruct (zsqrt_Fin_sq v s Hv H) as [_ ->].
  assert (0 <= Ewm.old_wt st * q) by nra.
  nra.
Qed.

Lemma deviation_bound_loop rest : forall mst cst t x m s,
  wt_inv cst ->
  Ewm.old_wt cst <= 1 + com ->
  Ewm.weighted mst = Ewm.mean_x cst ->
  Ewm.m_old_wt mst = Ewm.old_wt cst ->
  nth_error (map Ewm.zsqrt (Ewm.var_loop com cst rest)) t = Some (Fin s) ->
  nth_error rest t = Some x ->
  nth_error (Ewm.mean_loop com mst rest) t = Some (Fin m) ->
  (x - m) * (x - m) <= com * (s * s).
Proof.
  induction rest as [|cur rest IH]; intros mst cst t x m s Hinv Hb Hw Hwt
    Hsd Hx Hm; [destruct t; discriminate|].
  assert (Ho : 0 <= Ewm.old_wt cst) by (destruct Hinv; lra).
  destruct (mean_cov_step_agree com Hcom mst cst cur Ho Hw Hwt) as [Hw' Hwt'].
  destruct t as [|t]; cbn [Ewm.var_loop Ewm.mean_loop map nth_error] in *.
  - assert (Em : Ewm.weighted (Ewm.mean_step com mst cur) = m) by congruence.
    assert (Ex : cur = x) by congruence.
    assert (Es : Ewm.zsqrt (Ewm.cov_out (Ewm.cov_step com cst cur)) = Fin s)
      by congruence.
    rewrite <- Em, <- Ex, Hw'. now apply std_step_deviation.
  - apply (IH (Ewm.mean_step com mst cur) (Ewm.cov_step com cst cur) t);
      try assumption.
    + now apply wt_inv_step.
    + now apply cov_step_old_wt_bound.
Qed.

Lemma deviation_bound_nth xs t x m s :
  nth_error xs t = Some x ->
  nth_error (Ewm.mean com xs) t = Some (Fin m) ->
  nth_error (Ewm.std com xs) t = Some (Fin s) ->
  (x - m) * (x - m) <= com * (s * s).
Proof.
  destruct xs as [|x0 rest]; [destruct t; discriminate|].
  unfold Ewm.std. destruct t as [|t]; cbn [Ewm.var Ewm.mean map nth_error].
  - discriminate.
  - intros Hx Hm Hs.
    apply (deviation_bound_loop rest (Ewm.mean_init x0) (Ewm.cov_init x0) t);
      try assumption; try reflexivity.
    + apply wt_inv_init.
    + cbn. lra.
Qed.

End Deviation.


(** Rows of one table never pass the test when the multiplier is large
    for the span. *)
Lemma wide_band_row_not_reported (s : Series R) (span weight : R) (user : Z)
    (rows : list BandRow) (r : BandRow) :
  (span - 1) / 2 <= weight * weight ->
  compute_pct_b s span weight user = Ok rows ->
  In r rows ->
  fgt (pct_b r) (Fin 1) = false.
Proof.
  intros HK Hc Hin. apply In_nth_error in Hin. destruct Hin as (t & Hn).
  destruct (compute_pct_b_row _ _ _ _ _ _ _ Hc Hn)
    as (Hspan & d & x & m & sd & Hs & Hm & Hsd & ->).
  destruct (mean_nth_Fin _ _ _ _ Hm) as (m' & ->).
  destruct (std_nth_cases _ _ _ _ Hsd) as [-> | (sd' & -> & Hpos)].
  - now rewrite band_row_NaN_pct_b.
  - assert (Hcom : 0 <= (span - 1) / 2) by lra.
    assert (Hx : nth_error (map snd s) t = Some x)
      by (rewrite nth_error_map, Hs; reflexivity).
    pose proof (deviation_bound_nth _ Hcom _ _ _ _ _ Hx Hm Hsd) as Hdev.
    apply not_true_is_false. rewrite band_row_reported.
    assert (Hsq : 0 <= sd' * sd')
      by (pose proof (Rle_0_sqr sd') as H; unfold Rsqr in H; exact H).
    assert (Hle : (x - m') * (x - m') <= (sd' * weight) * (sd' * weight)).
    { replace (sd' * weight * (sd' * weight))
        with (weight * weight * (sd' * sd')) by ring. nra. }
    intros [[H0 H]|[H0 H]]; nra.
Qed.

Lemma filter_all_false {A : Type} (f : A -> bool) (l : list A) :
  (forall a, In a l -> f a = false) -> filter f l = [].
Proof.
  induction l as [|a l IH]; intros H; [reflexivity|].
  cbn [filter]. rewrite (H a (or_introl eq_refl)).
  apply IH. intros b Hb. apply H. now right.
Qed.

(** X4: with a multiplier whose square is at least [(span - 1) / 2]
    (span 30 and weight 6, say) [find_anomalies] returns the empty table
    for every log and every user. *)
Theorem wide_band_reports_nothing (df : list LogRow) (user : Z)
    (span weight : R) :
  1 <= span ->
  (span - 1) / 2 <= weight * weight ->
  find_anomalies df user span weight = Ok [].
Proof.
  intros Hspan HK. unfold find_anomalies.
  destruct (compute_pct_b_ok (as_float (one_user_df_prep df user)) span
              weight user Hspan) as (rows & Hc & _).
  rewrite Hc. cbn [bind]. f_equal. unfold above_upper_band.
  apply filter_all_false. intros r Hin.
  now apply (wide_band_row_not_reported _ _ _ _ _ _ HK Hc).
Qed.

Lemma wide_band_reports_nothing_witness :
  find_anomalies spike_log 1 30 6 = Ok [].
Proof. apply (wide_band_reports_nothing spike_log 1 30 6); lra. Defined.

(** ** The first row, and span 1 *)

(** X1: the first row of the table has the value as its midband, no
    bands and no [pct_b], and is not among the rows returned. *)
Theorem first_row_never_reported (s : Series R) (span weight : R) (user : Z)
    (rows : list BandRow) (r : BandRow) :
  compute_pct_b s span weight user = Ok rows ->
  nth_error rows 0 = Some r ->
  midband r = Fin (pages_one_user r)
  /\ ub r = NaN /\ lb r = NaN /\ pct_b r = NaN
  /\ ~ In r (above_upper_band rows).
Proof.
  intros Hc Hn.
  destruct (compute_pct_b_row _ _ _ _ _ _ _ Hc Hn)
    as (Hspan & d & x & m & sd & Hs & Hm & Hsd & ->).
  destruct s as [|[d0 x0] s]; [discriminate|].
  cbn in Hs, Hm, Hsd.
  injection Hs as <- <-. injection Hm as <-. injection Hsd as <-.
  repeat split.
  intros Hin. apply above_upper_band_In in Hin. destruct Hin as [_ H].
  discriminate.
Qed.

Lemma first_row_never_reported_witness :
  midband (band_row (0 * day_ns) 1 (Fin 1) NaN 3 1)
  = Fin (pages_one_user (band_row (0 * day_ns) 1 (Fin 1) NaN 3 1))
  /\ ub (band_row (0 * day_ns) 1 (Fin 1) NaN 3 1) = NaN
  /\ lb (band_row (0 * day_ns) 1 (Fin 1) NaN 3 1) = NaN
  /\ pct_b (band_row (0 * day_ns) 1 (Fin 1) NaN 3 1) = NaN
  /\ ~ In (band_row (0 * day_ns) 1 (Fin 1) NaN 3 1)
          (above_upper_band (level_rows 3 1)).
Proof.
  apply (first_row_never_reported level_series 3 3 1 (level_rows 3 1)).
  - apply level_compute_pct_b.
  - reflexivity.
Defined.

Lemma std_span_1_nth (xs : list R) (t : nat) (sd : float) :
  nth_error (Ewm.std 0 xs) t = Some sd -> sd = NaN.
Proof.
  unfold Ewm.std. rewrite nth_error_map.
  destruct (nth_error (Ewm.var 0 xs) t) as [v|] eqn:Hv; [|discriminate].
  intros [= <-].
  destruct xs as [|x0 rest]; [destruct t; discriminate|].
  destruct t as [|t]; cbn [Ewm.var nth_error] in Hv.
  - now injection Hv as <-.
  - now rewrite (var_loop_span_1 _ _ _ _ Hv).
Qed.

(** X2: with span 1 no row has a standard deviation, and
    [find_anomalies] returns the empty table whatever the log, the user
    and the multiplier. *)
Theorem span_1_reports_nothing (df : list LogRow) (user : Z) (weight : R) :
  find_anomalies df user 1 weight = Ok [].
Proof.
  unfold find_anomalies.
  destruct (compute_pct_b_ok (as_float (one_user_df_prep df user)) 1
              weight user) as (rows & Hc & _); [lra|].
  rewrite Hc. cbn [bind]. f_equal. unfold above_upper_band.
  apply filter_all_false. intros r Hin.
  apply In_nth_error in Hin. destruct Hin as (t & Hn).
  destruct (compute_pct_b_row _ _ _ _ _ _ _ Hc Hn)
    as (_ & d & x & m & sd & _ & _ & Hsd & ->).
  replace ((1 - 1) / 2) with 0 in Hsd by lra.
  rewrite (std_span_1_nth _ _ _ Hsd). now rewrite band_row_NaN_pct_b.
Qed.

(** ** Reported means above the upper band *)

Lemma row_shape (s : Series R) (span weight : R) (user : Z)
    (rows : list BandRow) (r : BandRow) :
  compute_pct_b s span weight user = Ok rows ->
  In r rows ->
  exists t d x m,
    nth_error s t = Some (d, x)
    /\ nth_error (Ewm.mean ((span - 1) / 2) (map snd s)) t = Some (Fin m)
    /\ 1 <= span
    /\ (nth_error (Ewm.std ((span - 1) / 2) (map snd s)) t = Some NaN
        /\ r = band_row d x (Fin m) NaN weight user
        \/ exists sd,
             nth_error (Ewm.std ((span - 1) / 2) (map snd s)) t
               = Some (Fin sd)
             /\ 0 <= sd
             /\ r = band_row d x (Fin m) (Fin sd) weight user).
Proof.
  intros Hc Hin. apply In_nth_error in Hin. destruct Hin as (t & Hn).
  destruct (compute_pct_b_row _ _ _ _ _ _ _ Hc Hn)
    as (Hspan & d & x & m & sd & Hs & Hm & Hsd & ->).
  destruct (mean_nth_Fin _ _ _ _ Hm) as (m' & ->).
  exists t, d, x, m'. repeat split; try assumption.
  destruct (std_nth_cases _ _ _ _ Hsd) as [-> | (sd' & -> & Hpos)].
  - left. now split.
  - right. exists sd'. repeat split; assumption.
Qed.

(** X6: with a multiplier [K >= 0] the rows returned are exactly the
    rows whose upper band is defined and whose value is strictly above
    it. *)
Theorem reported_iff_above_upper_band (s : Series R) (span weight : R)
    (user : Z) (rows : list BandRow) (r : BandRow) :
  compute_pct_b s span weight user = Ok rows ->
  0 <= weight ->
  (In r (above_upper_band rows)
   <-> In r rows /\ exists u, ub r = Fin u /\ u < pages_one_user r).
Proof.
  intros Hc Hw. rewrite above_upper_band_In. split.
  - intros [Hin Hgt]. split; [assumption|].
    destruct (row_shape _ _ _ _ _ _ Hc Hin)
      as (t & d & x & m & _ & _ & _ & [[_ ->] | (sd & _ & Hsd & ->)]).
    + rewrite band_row_NaN_pct_b in Hgt. discriminate.
    + apply band_row_reported in Hgt.
      exists (m + sd * weight). split; [reflexivity|].
      cbn [pages_one_user band_row]. destruct Hgt as [[_ H]|[H _]]; nra.
  - intros (Hin & u & Hu & Hlt). split; [assumption|].
    destruct (row_shape _ _ _ _ _ _ Hc Hin)
      as (t & d & x & m & _ & _ & _ & [[_ ->] | (sd & _ & Hsd & ->)]).
    + rewrite band_row_NaN_ub in Hu. discriminate.
    + rewrite band_row_Fin_ub in Hu. injection Hu as <-.
      cbn [pages_one_user band_row] in Hlt.
      apply band_row_reported. left. split; [nra | assumption].
Qed.

Lemma reported_iff_above_upper_band_witness :
  In (band_row (1 * day_ns) 4 (Fin 3) (Fin (sqrt (9 / 2))) (1 / 4) 1)
     (above_upper_band (level_rows (1 / 4) 1))
  <-> In (band_row (1 * day_ns) 4 (Fin 3) (Fin (sqrt (9 / 2))) (1 / 4) 1)
         (level_rows (1 / 4) 1)
      /\ exists u,
           ub (band_row (1 * day_ns) 4 (Fin 3) (Fin (sqrt (9 / 2))) (1 / 4) 1)
             = Fin u
           /\ u < pages_one_user
                    (band_row (1 * day_ns) 4 (Fin 3) (Fin (sqrt (9 / 2)))
                       (1 / 4) 1).
Proof.
  apply (reported_iff_above_upper_band level_series 3 (1 / 4) 1).
  - apply level_compute_pct_b.
  - lra.
Defined.


(** X8: with a multiplier [K >= 0], [pct_b < 0] holds on a row exactly
    when its lower band is defined and the value is strictly below it. *)
Theorem pct_b_negative_iff_below_lower_band (s : Series R) (span weight : R)
    (user : Z) (rows : list BandRow) (r : BandRow) :
  compute_pct_b s span weight user = Ok rows ->
  In r rows ->
  0 <= weight ->
  (flt (pct_b r) (Fin 0) = true
   <-> exists l, lb r = Fin l /\ pages_one_user r < l).
Proof.
  intros Hc Hin Hw.
  destruct (row_shape _ _ _ _ _ _ Hc Hin)
    as (t & d & x & m & _ & _ & _ & [[_ ->] | (sd & _ & Hsd & ->)]).
  - rewrite band_row_NaN_pct_b. split; [discriminate|].
    intros (l & Hl & _). cbn in Hl. discriminate.
  - assert (H0 : 0 <= sd * weight) by nra.
    rewrite (band_row_below _ _ _ _ _ _ H0). rewrite band_row_Fin_lb.
    cbn [pages_one_user band_row]. split.
    + intros H. eexists; split; [reflexivity | assumption].
    + intros (l & [= <-] & H). assumption.
Qed.

(** ** Constant series *)

Lemma mean_step_same (com : R) (st : Ewm.mean_state) :
  Ewm.weighted (Ewm.mean_step com st (Ewm.weighted st)) = Ewm.weighted st.
Proof.
  unfold Ewm.mean_step; cbn [Ewm.weighted]. now rewrite Reqb_refl.
Qed.

Lemma mean_loop_constant (com c : R) (xs : list R) : forall st t m,
  Ewm.weighted st = c ->
  (forall x, In x xs -> x = c) ->
  nth_error (Ewm.mean_loop com st xs) t = Some m -> m = Fin c.
Proof.
  induction xs as [|cur rest IH]; intros st t m Hw Hall Hn;
    [destruct t; discriminate|].
  assert (Hcur : cur = c) by (apply Hall; now left).
  assert (Hw' : Ewm.weighted (Ewm.mean_step com st cur) = c)
    by (rewrite Hcur, <- Hw; apply mean_step_same).
  destruct t as [|t]; cbn [Ewm.mean_loop nth_error] in Hn.
  - rewrite <- Hw'. injection Hn as <-. reflexivity.
  - apply (IH _ t m Hw'); [|exact Hn]. intros x Hx. apply Hall. now right.
Qed.

Lemma cov_step_same (com : R) (st : Ewm.cov_state) :
  Ewm.cov st = 0 ->
  Ewm.mean_x (Ewm.cov_step com st (Ewm.mean_x st)) = Ewm.mean_x st
  /\ Ewm.cov (Ewm.cov_step com st (Ewm.mean_x st)) = 0.
Proof.
  intros Hc. unfold Ewm.cov_step; cbn [Ewm.mean_x Ewm.cov].
  rewrite Reqb_refl, Hc. split; [reflexivity|]. unfold Rdiv. ring.
Qed.

Lemma zsqrt_cov_out_zero (st : Ewm.cov_state) :
  Ewm.cov st = 0 ->
  Ewm.zsqrt (Ewm.cov_out st) = NaN \/ Ewm.zsqrt (Ewm.cov_out st) = Fin 0.
Proof.
  intros Hc. unfold Ewm.cov_out. destruct (Rltb 0 _); [|now left].
  right. rewrite Hc, Rmult_0_r. rewrite zsqrt_Fin by lra. now rewrite sqrt_0.
Qed.

Lemma std_loop_constant (com c : R) (xs : list R) : forall st t sd,
  Ewm.mean_x st = c -> Ewm.cov st = 0 ->
  (forall x, In x xs -> x = c) ->
  nth_error (map Ewm.zsqrt (Ewm.var_loop com st xs)) t = Some sd ->
  sd = NaN \/ sd = Fin 0.
Proof.
  induction xs as [|cur rest IH]; intros st t sd Hm Hc Hall Hn;
    [destruct t; discriminate|].
  assert (Hcur : cur = Ewm.mean_x st) by (rewrite Hm; apply Hall; now left).
  destruct (cov_step_same com st Hc) as [Hm' Hc'].
  rewrite <- Hcur in Hm', Hc'.
  destruct t as [|t]; cbn [Ewm.var_loop map nth_error] in Hn.
  - injection Hn as <-. now apply zsqrt_cov_out_zero.
  - apply (IH (Ewm.cov_step com st cur) t sd); try assumption.
    + rewrite Hm', Hcur. exact Hm.
    + intros x Hx. apply Hall. now right.
Qed.

Lemma band_row_flat d c weight user :
  pct_b (band_row d c (Fin c) (Fin 0) weight user) = NaN
  /\ ub (band_row d c (Fin c) (Fin 0) weight user) = Fin c
  /\ lb (band_row d c (Fin c) (Fin 0) weight user) = Fin c.
Proof.
  split.
  - rewrite band_row_Fin_pct_b_zero_width by lra.
    unfold inf_of_sign. rewrite !Rltb_ge by lra. reflexivity.
  - rewrite band_row_Fin_ub, band_row_Fin_lb. split; f_equal; lra.
Qed.

(** X9: on a series of one repeated value [c] every row has midband
    exactly [c], bands that are undefined or exactly [c], no [pct_b], and
    no row is returned. *)
Theorem constant_series_reports_nothing (s : Series R) (c span weight : R)
    (user : Z) (rows : list BandRow) :
  (forall p, In p s -> snd p = c) ->
  compute_pct_b s span weight user = Ok rows ->
  (forall r, In r rows ->
     midband r = Fin c /\ pct_b r = NaN
     /\ (ub r = NaN /\ lb r = NaN \/ ub r = Fin c /\ lb r = Fin c))
  /\ above_upper_band rows = [].
Proof.
  intros Hall Hc.
  assert (Hrows : forall r, In r rows ->
            midband r = Fin c /\ pct_b r = NaN
            /\ (ub r = NaN /\ lb r = NaN \/ ub r = Fin c /\ lb r = Fin c)).
  { intros r Hin. apply In_nth_error in Hin. destruct Hin as (t & Hn).
    destruct (compute_pct_b_row _ _ _ _ _ _ _ Hc Hn)
      as (_ & d & x & m & sd & Hs & Hm & Hsd & ->).
    assert (Hx : x = c) by (apply (Hall (d, x)); eapply nth_error_In; eauto).
    subst x.
    assert (Hall' : forall x, In x (map snd s) -> x = c).
    { intros x Hx. apply in_map_iff in Hx. destruct Hx as (p & <- & Hp).
      now apply Hall. }
    destruct (map snd s) as [|x0 rest] eqn:Exs; [destruct t; discriminate|].
    assert (Hx0 : x0 = c) by (apply Hall'; now left). subst x0.
    assert (Hrest : forall x, In x rest -> x = c)
      by (intros x Hx; apply Hall'; now right).
    assert (Hm' : m = Fin c).
    { destruct t as [|t]; cbn [Ewm.mean nth_error] in Hm.
      - now injection Hm as <-.
      - apply (mean_loop_constant ((span - 1) / 2) c rest (Ewm.mean_init c)
                 t m);
          [reflexivity | exact Hrest | exact Hm]. }
    assert (Hsd' : sd = NaN \/ sd = Fin 0).
    { unfold Ewm.std in Hsd.
      destruct t as [|t]; cbn [Ewm.var map nth_error] in Hsd.
      - injection Hsd as <-. now left.
      - apply (std_loop_constant ((span - 1) / 2) c rest (Ewm.cov_init c)
                 t sd);
          try reflexivity; assumption. }
    subst m. destruct Hsd' as [-> | ->].
    - split; [reflexivity|]. split; [reflexivity|]. left. now split.
    - destruct (band_row_flat d c weight user) as (Hp & Hu & Hl).
      split; [reflexivity|]. split; [assumption|]. right. now split. }
  split; [exact Hrows|].
  unfold above_upper_band. apply filter_all_false. intros r Hin.
  destruct (Hrows r Hin) as (_ & -> & _). reflexivity.
Qed.

Lemma constant_series_reports_nothing_witness :
  (forall r, In r (constant_rows 3 1) ->
     midband r = Fin 5 /\ pct_b r = NaN
     /\ (ub r = NaN /\ lb r = NaN \/ ub r = Fin 5 /\ lb r = Fin 5))
  /\ above_upper_band (constant_rows 3 1) = [].
Proof.
  apply (constant_series_reports_nothing constant_series 5 3 3 1).
  - intros p [<-|[<-|[]]]; reflexivity.
  - apply constant_compute_pct_b.
Defined.

(** ** The table keeps the series *)

(** X10: the table has the rows of the series, in order: its date and
    value columns are the series, and every row carries the user id. *)
Theorem table_keeps_series (s : Series R) (span weight : R) (user : Z)
    (rows : list BandRow) :
  compute_pct_b s span weight user = Ok rows ->
  map (fun r => (row_date r, pages_one_user r)) rows = s
  /\ (forall r, In r rows -> row_user_id r = user).
Proof.
  intros Hc.
  assert (Hspan : 1 <= span).
  { destruct (Rlt_dec span 1) as [Hlt|Hge]; [|lra].
    rewrite compute_pct_b_error in Hc by assumption. discriminate. }
  destruct (compute_pct_b_ok s span weight user Hspan) as (rows' & Hc' & Hlen).
  assert (rows' = rows) by congruence. subst rows'.
  split.
  - apply nth_error_ext. intros t. rewrite nth_error_map.
    destruct (nth_error rows t) as [r|] eqn:Hn.
    + destruct (compute_pct_b_row _ _ _ _ _ _ _ Hc Hn)
        as (_ & d & x & m & sd & Hs & _ & _ & ->).
      cbn. now rewrite Hs.
    + cbn. symmetry. apply nth_error_None. apply nth_error_None in Hn. lia.
  - intros r Hin. apply In_nth_error in Hin. destruct Hin as (t & Hn).
    destruct (compute_pct_b_row _ _ _ _ _ _ _ Hc Hn)
      as (_ & d & x & m & sd & _ & _ & _ & ->).
    reflexivity.
Qed.

Lemma table_keeps_series_witness :
  map (fun r => (row_date r, pages_one_user r)) (level_rows 3 1)
  = level_series
  /\ (forall r, In r (level_rows 3 1) -> row_user_id r = 1%Z).
Proof.
  apply (table_keeps_series level_series 3 3 1). apply level_compute_pct_b.
Defined.

Open Scope Z_scope.

Ltac Zbool :=
  repeat match goal with
  | H : (_ <=? _) = true |- _ => apply Z.leb_le in H
  | H : (_ <=? _) = false |- _ => apply Z.leb_gt in H
  | H : (_ <? _) = true |- _ => apply Z.ltb_lt in H
  | H : (_ <? _) = false |- _ => apply Z.ltb_ge in H
  | H : (_ =? _) = true |- _ => apply Z.eqb_eq in H
  | H : (_ =? _) = false |- _ => apply Z.eqb_neq in H
  end.

(** ** Every page view is counted once *)

Lemma sumZ_app (l1 l2 : list Z) : sumZ (l1 ++ l2) = sumZ l1 + sumZ l2.
Proof.
  induction l1 as [|x l1 IH]; cbn [sumZ app fold_right] in *; [reflexivity|].
  fold (sumZ (l1 ++ l2)). fold (sumZ l1). rewrite IH. lia.
Qed.

Lemma sumZ_map_add {A : Type} (f g : A -> Z) (l : list A) :
  sumZ (map (fun a => f a + g a) l) = sumZ (map f l) + sumZ (map g l).
Proof.
  induction l as [|a l IH]; [reflexivity|].
  cbn [map sumZ fold_right] in *.
  fold (sumZ (map (fun a => f a + g a) l)).
  fold (sumZ (map f l)). fold (sumZ (map g l)). rewrite IH. lia.
Qed.

Lemma sumZ_map_zero {A : Type} (f : A -> Z) (l : list A) :
  (forall a, In a l -> f a = 0) -> sumZ (map f l) = 0.
Proof.
  induction l as [|a l IH]; intros H; [reflexivity|].
  cbn [map sumZ fold_right]. fold (sumZ (map f l)).
  rewrite (H a (or_introl eq_refl)), IH; [reflexivity|].
  intros b Hb. apply H. now right.
Qed.

(** One day of the range [first .. first + n - 1] is hit once. *)
Lemma sumZ_day_indicator (d first : Z) (n : nat) :
  sumZ (map (fun k => if d =? first + Z.of_nat k then 1 else 0) (seq 0 n))
  = if (first <=? d) && (d <? first + Z.of_nat n) then 1 else 0.
Proof.
  induction n as [|n IH].
  - cbn [seq map sumZ fold_right].
    destruct (first <=? d) eqn:E1; cbn [andb]; [|reflexivity].
    destruct (d <? first + Z.of_nat 0) eqn:E2; [|reflexivity]. Zbool. lia.
  - rewrite seq_S, map_app, sumZ_app, IH. cbn [map sumZ fold_right plus].
    destruct (first <=? d) eqn:E1; cbn [andb];
      destruct (d <? first + Z.of_nat n) eqn:E2;
      destruct (d =? first + Z.of_nat n) eqn:E3;
      destruct (d <? first + Z.of_nat (S n)) eqn:E4; Zbool; lia.
Qed.

Lemma views_on_cons (r : LogRow) (df : list LogRow) (user day : Z) :
  views_on (r :: df) user day
  = views_on df user day
    + (if (user_id r =? user) && notnull (endpoint r)
       then (if day_of (date r) =? day then 1 else 0) else 0).
Proof.
  unfold views_on. cbn [filter].
  destruct (user_id r =? user); destruct (day_of (date r) =? day);
    destruct (notnull (endpoint r)); cbn [andb length]; lia.
Qed.

Lemma views_total_cons (r : LogRow) (df : list LogRow) (user : Z) :
  views_total (r :: df) user
  = views_total df user
    + (if (user_id r =? user) && notnull (endpoint r) then 1 else 0).
Proof.
  unfold views_total. cbn [filter].
  destruct ((user_id r =? user) && notnull (endpoint r)); cbn [length]; lia.
Qed.

Lemma sum_views_on (user first : Z) (n : nat) (df : list LogRow) :
  (forall r, In r df -> user_id r = user ->
     first <= day_of (date r) < first + Z.of_nat n) ->
  sumZ (map (fun k => views_on df user (first + Z.of_nat k)) (seq 0 n))
  = views_total df user.
Proof.
  induction df as [|r df IH]; intros Hrange.
  - apply sumZ_map_zero. reflexivity.
  - rewrite (map_ext _ (fun k =>
       views_on df user (first + Z.of_nat k)
       + (if (user_id r =? user) && notnull (endpoint r)
          then (if day_of (date r) =? first + Z.of_nat k then 1 else 0)
          else 0))) by (intros k; apply views_on_cons).
    rewrite sumZ_map_add, IH, views_total_cons
      by (intros r' Hr'; apply Hrange; now right).
    f_equal.
    destruct ((user_id r =? user) && notnull (endpoint r)) eqn:E.
    + rewrite sumZ_day_indicator.
      apply andb_true_iff in E. destruct E as [E _].
      apply Z.eqb_eq in E.
      pose proof (Hrange r (or_introl eq_refl) E) as H.
      destruct (first <=? day_of (date r)) eqn:E1;
        destruct (day_of (date r) <? first + Z.of_nat n) eqn:E2;
        cbn [andb]; Zbool; lia.
    + apply sumZ_map_zero. reflexivity.
Qed.

Lemma user_days_nil (df : list LogRow) (user : Z) :
  user_days df user = [] -> filter (fun r => user_id r =? user) df = [].
Proof. unfold user_days. apply map_eq_nil. Qed.

Lemma views_total_no_rows (df : list LogRow) (user : Z) :
  filter (fun r => user_id r =? user) df = [] -> views_total df user = 0.
Proof.
  unfold views_total. intros H.
  replace (filter _ df) with (@nil LogRow); [reflexivity|].
  symmetry. induction df as [|r df IH]; [reflexivity|].
  cbn [filter] in *. destruct (user_id r =? user); [discriminate|].
  cbn [andb]. now apply IH.
Qed.

Lemma one_user_df_prep_nil (df : list LogRow) (user : Z) :
  user_days df user = [] -> one_user_df_prep df user = [].
Proof.
  intros H. unfold one_user_df_prep, resample_d_count.
  rewrite map_map. cbn [fst]. fold (user_days df user). now rewrite H.
Qed.

(** X11: the daily counts of a user add up to the number of the user's
    rows that have an endpoint: no page view is lost or counted twice. *)
Theorem daily_counts_add_up (df : list LogRow) (user : Z) :
  total_count (one_user_df_prep df user) = views_total df user.
Proof.
  destruct (user_days df user) as [|d ds] eqn:Hd.
  - rewrite one_user_df_prep_nil by assumption.
    rewrite views_total_no_rows by now apply user_days_nil. reflexivity.
  - rewrite (one_user_df_prep_eq _ _ _ _ Hd). unfold total_count.
    rewrite map_map. cbn [snd].
    destruct (fold_right_min_spec d ds) as [_ Hmin].
    destruct (fold_right_max_spec d ds) as [_ Hmax].
    apply sum_views_on. intros r Hin Hu.
    assert (Hday : In (day_of (date r)) (d :: ds)).
    { rewrite <- Hd. unfold user_days. apply in_map_iff. exists r.
      split; [reflexivity|]. apply filter_In. split; [assumption|].
      now apply Z.eqb_eq. }
    pose proof (Hmin _ Hday). pose proof (Hmax _ Hday). lia.
Qed.

(** ** Only a user's own rows matter, in any order *)

Lemma Permutation_filter' {A : Type} (f : A -> bool) (l l' : list A) :
  Permutation l l' -> Permutation (filter f l) (filter f l').
Proof.
  induction 1 as [|x l l' _ IH|x y l|l l' l'' _ IH1 _ IH2]; cbn [filter].
  - constructor.
  - destruct (f x); [now constructor | assumption].
  - destruct (f x), (f y); try apply Permutation_refl. apply perm_swap.
  - eapply Permutation_trans; eassumption.
Qed.

Lemma fold_right_min_perm (d d' : Z) (ds ds' : list Z) :
  Permutation (d :: ds) (d' :: ds') ->
  fold_right Z.min d ds = fold_right Z.min d' ds'.
Proof.
  intros Hp.
  destruct (fold_right_min_spec d ds) as [Hin Hle].
  destruct (fold_right_min_spec d' ds') as [Hin' Hle'].
  pose proof (Hle' _ (Permutation_in _ Hp Hin)).
  pose proof (Hle _ (Permutation_in _ (Permutation_sym Hp) Hin')). lia.
Qed.

Lemma fold_right_max_perm (d d' : Z) (ds ds' : list Z) :
  Permutation (d :: ds) (d' :: ds') ->
  fold_right Z.max d ds = fold_right Z.max d' ds'.
Proof.
  intros Hp.
  destruct (fold_right_max_spec d ds) as [Hin Hle].
  destruct (fold_right_max_spec d' ds') as [Hin' Hle'].
  pose proof (Hle' _ (Permutation_in _ Hp Hin)).
  pose proof (Hle _ (Permutation_in _ (Permutation_sym Hp) Hin')). lia.
Qed.

Lemma resample_d_count_perm {A : Type} (s s' : Series (option A)) :
  Permutation s s' -> resample_d_count s = resample_d_count s'.
Proof.
  intros Hp. unfold resample_d_count.
  pose proof (Permutation_map (fun p : Z * option A => day_of (fst p)) Hp)
    as Hd.
  assert (Hcount : forall day, count_in_bin s day = count_in_bin s' day).
  { intros day. unfold count_in_bin. f_equal. apply Permutation_length.
    now apply Permutation_filter'. }
  destruct (map _ s) as [|d ds]; destruct (map _ s') as [|d' ds'].
  - reflexivity.
  - apply Permutation_nil in Hd. discriminate.
  - apply Permutation_sym, Permutation_nil in Hd. discriminate.
  - rewrite (fold_right_min_perm _ _ _ _ Hd), (fold_right_max_perm _ _ _ _ Hd).
    apply map_ext. intros k. cbv zeta. now rewrite Hcount.
Qed.

Lemma one_user_df_prep_perm (df df' : list LogRow) (user : Z) :
  Permutation (filter (fun r => user_id r =? user) df)
              (filter (fun r => user_id r =? user) df') ->
  one_user_df_prep df user = one_user_df_prep df' user.
Proof.
  intros Hp. unfold one_user_df_prep.
  apply resample_d_count_perm. now apply Permutation_map.
Qed.

(** X12: the daily series and the anomalies of a user depend only on
    the user's own rows, in whatever order: two logs whose rows of that
    user are a permutation of each other give the same results. *)
Theorem own_rows_in_any_order (df df' : list LogRow) (user : Z)
    (span weight : R) :
  Permutation (filter (fun r => user_id r =? user) df)
              (filter (fun r => user_id r =? user) df') ->
  one_user_df_prep df user = one_user_df_prep df' user
  /\ find_anomalies df user span weight
     = find_anomalies df' user span weight.
Proof.
  intros Hp. pose proof (one_user_df_prep_perm _ _ _ Hp) as H.
  split; [assumption|]. unfold find_anomalies. now rewrite H.
Qed.

Lemma own_rows_in_any_order_witness :
  one_user_df_prep gap_log 1 = one_user_df_prep (rev gap_log) 1
  /\ find_anomalies gap_log 1 3%R 3%R = find_anomalies (rev gap_log) 1 3%R 3%R.
Proof.
  apply (own_rows_in_any_order gap_log (rev gap_log) 1 3%R 3%R).
  apply perm_swap.
Defined.

(** ** A user who is not in the log *)

(** X13: for a user without rows in the log the daily series is empty,
    and [find_anomalies] returns the empty table, or fails when the span
    is below 1. *)
Theorem absent_user_empty_result (df : list LogRow) (user : Z)
    (span weight : R) :
  (forall r, In r df -> user_id r <> user) ->
  one_user_df_prep df user = []
  /\ (1 <= span -> find_anomalies df user span weight = Ok [])%R
  /\ (span < 1 -> find_anomalies df user span weight = ValueError)%R.
Proof.
  intros Habs.
  assert (Hd : user_days df user = []).
  { unfold user_days. rewrite filter_all_false; [reflexivity|].
    intros r Hr. apply Z.eqb_neq. now apply Habs. }
  pose proof (one_user_df_prep_nil _ _ Hd) as He.
  split; [assumption|]. split; intros Hspan; unfold find_anomalies; rewrite He.
  - unfold compute_pct_b, ewm_mean, ewm_std.
    rewrite get_center_of_mass_ok by assumption. reflexivity.
  - now rewrite compute_pct_b_error.
Qed.

Lemma absent_user_empty_result_witness :
  one_user_df_prep gap_log 7 = []
  /\ (1 <= 3 -> find_anomalies gap_log 7 3%R 3%R = Ok [])%R
  /\ (3 < 1 -> find_anomalies gap_log 7 3%R 3%R = ValueError)%R.
Proof.
  apply (absent_user_empty_result gap_log 7 3%R 3%R).
  intros r [<-|[<-|[<-|[]]]]; discriminate.
Defined.

Close Scope Z_scope.

(** ** The loop over all users *)

Lemma unique_In (l : list Z) (x : Z) : In x (unique l) <-> In x l.
Proof.
  induction l as [|y l IH]; [reflexivity|].
  cbn [unique In]. rewrite filter_In, IH.
  destruct (Z.eq_dec y x) as [->|Hne].
  - split; [now left | now left].
  - split.
    + intros [H|[H _]]; [now left | now right].
    + intros [H|H]; [now left|]. right. split; [assumption|].
      apply negb_true_iff, Z.eqb_neq. congruence.
Qed.

Lemma NoDup_filter' {A : Type} (f : A -> bool) (l : list A) :
  NoDup l -> NoDup (filter f l).
Proof.
  induction 1 as [|x l Hx _ IH]; cbn [filter]; [constructor|].
  destruct (f x); [|assumption]. constructor; [|assumption].
  intros Hin. apply filter_In in Hin. now destruct Hin.
Qed.

Lemma unique_NoDup (l : list Z) : NoDup (unique l).
Proof.
  induction l as [|x l IH]; cbn [unique]; constructor.
  - intros Hin. apply filter_In in Hin. destruct Hin as [_ H].
    apply negb_true_iff, Z.eqb_neq in H. congruence.
  - now apply NoDup_filter'.
Qed.

Lemma find_anomalies_ok (df : list LogRow) (u : Z) (span weight : R) :
  1 <= span ->
  find_anomalies df u span weight = Ok (anomalies_of df span weight u).
Proof.
  intros Hspan. unfold anomalies_of, find_anomalies.
  destruct (compute_pct_b_ok (as_float (one_user_df_prep df u)) span weight u
              Hspan) as (rows & -> & _).
  reflexivity.
Qed.

Lemma anomalies_loop_ok (df : list LogRow) (span weight : R) (users : list Z) :
  1 <= span -> forall acc,
  anomalies_loop df users span weight acc
  = Ok (acc ++ flat_map (anomalies_of df span weight) users).
Proof.
  intros Hspan. induction users as [|u users IH]; intros acc;
    cbn [anomalies_loop flat_map].
  - now rewrite app_nil_r.
  - rewrite find_anomalies_ok by assumption. cbn [bind].
    rewrite IH. now rewrite app_assoc.
Qed.

(** X14: with a span of at least 1 the loop over the users returns the
    tables of [find_anomalies] of the distinct users of the log, each
    user once, one after the other. *)
Theorem all_users_concatenation (df : list LogRow)
    (span weight : R) :
  1 <= span ->
  anomalies_all_users df span weight
    = Ok (flat_map (anomalies_of df span weight) (unique (map user_id df)))
  /\ NoDup (unique (map user_id df))
  /\ (forall u, In u (unique (map user_id df)) <-> In u (map user_id df))
  /\ (forall u, find_anomalies df u span weight
                = Ok (anomalies_of df span weight u)).
Proof.
  intros Hspan. split.
  { unfold anomalies_all_users. now rewrite anomalies_loop_ok. }
  split; [apply unique_NoDup|]. split.
  - intros u. apply unique_In.
  - intros u. now apply find_anomalies_ok.
Qed.

Lemma anomalies_of_rows (df : list LogRow) (span weight : R) (u : Z)
    (r : BandRow) :
  In r (anomalies_of df span weight u) ->
  row_user_id r = u /\ fgt (pct_b r) (Fin 1) = true.
Proof.
  unfold anomalies_of, find_anomalies.
  destruct (compute_pct_b _ span weight u) as [rows|] eqn:Hc; cbn [bind];
    [|intros []].
  intros Hin. apply above_upper_band_In in Hin. destruct Hin as [Hin Hgt].
  split; [|assumption].
  apply In_nth_error in Hin. destruct Hin as (t & Hn).
  destruct (compute_pct_b_row _ _ _ _ _ _ _ Hc Hn)
    as (_ & d & x & m & sd & _ & _ & _ & ->).
  reflexivity.
Qed.

(** X15: every row the loop returns carries the id of a user of the
    log, has [pct_b > 1], and is a row of [find_anomalies] for that
    user. *)
Theorem all_users_rows (df : list LogRow) (span weight : R)
    (anomalies : list BandRow) :
  anomalies_all_users df span weight = Ok anomalies ->
  forall r, In r anomalies ->
    (exists l, In l df /\ user_id l = row_user_id r)
    /\ fgt (pct_b r) (Fin 1) = true
    /\ exists rows, find_anomalies df (row_user_id r) span weight = Ok rows
                    /\ In r rows.
Proof.
  intros Hall r Hin.
  destruct (Rlt_dec span 1) as [Hlt|Hge].
  - (* an invalid span: the loop returns only when there is no user *)
    unfold anomalies_all_users in Hall.
    destruct (unique (map user_id df)) as [|u us]; cbn in Hall.
    + injection Hall as <-. destruct Hin.
    + unfold find_anomalies in Hall.
      rewrite compute_pct_b_error in Hall by assumption. discriminate.
  - assert (Hspan : 1 <= span) by lra.
    unfold anomalies_all_users in Hall.
    rewrite anomalies_loop_ok in Hall by assumption. injection Hall as <-.
    cbn [app] in Hin. apply in_flat_map in Hin. destruct Hin as (u & Hu & Hr).
    destruct (anomalies_of_rows _ _ _ _ _ Hr) as [Huid Hgt].
    rewrite Huid. split.
    { apply unique_In, in_map_iff in Hu. destruct Hu as (l & Hl & Hin).
      exists l. now split. }
    split; [assumption|].
    exists (anomalies_of df span weight u). split; [|assumption].
    now apply find_anomalies_ok.
Qed.

(** X16: with a span below 1 the loop fails at its first user; on an
    empty log there is no user and it returns the empty table. *)
Theorem all_users_invalid_span (df : list LogRow) (span weight : R) :
  span < 1 ->
  (df = [] -> anomalies_all_users df span weight = Ok [])
  /\ (df <> [] -> anomalies_all_users df span weight = ValueError).
Proof.
  intros Hspan. unfold anomalies_all_users. split.
  - intros ->. reflexivity.
  - intros Hne. destruct df as [|r df]; [contradiction|].
    cbn [map unique anomalies_loop]. unfold find_anomalies.
    now rewrite compute_pct_b_error.
Qed.

(** X17: with a multiplier whose square is at least [(span - 1) / 2]
    the loop over the users returns the empty table for every log. *)
Theorem all_users_wide_band_nothing (df : list LogRow) (span weight : R) :
  1 <= span ->
  (span - 1) / 2 <= weight * weight ->
  anomalies_all_users df span weight = Ok [].
Proof.
  intros Hspan HK. unfold anomalies_all_users.
  rewrite anomalies_loop_ok by assumption. cbn [app]. f_equal.
  induction (unique (map user_id df)) as [|u us IH]; [reflexivity|].
  cbn [flat_map]. rewrite IH. rewrite app_nil_r.
  unfold anomalies_of, find_anomalies.
  destruct (compute_pct_b _ span weight u) as [rows|] eqn:Hc; cbn [bind];
    [|reflexivity].
  unfold above_upper_band. apply filter_all_false. intros r Hin.
  now apply (wide_band_row_not_reported _ _ _ _ _ _ HK Hc).
Qed.

Open Scope Z_scope.

(** ** The series of all users is the sum of the users' series *)

Lemma day_ns_pos : 0 < day_ns.
Proof. reflexivity. Qed.

Lemma day_label_eqb (a b : Z) : (a * day_ns =? b * day_ns) = (a =? b).
Proof.
  pose proof day_ns_pos.
  destruct (a =? b) eqn:E; Zbool.
  - subst. apply Z.eqb_refl.
  - apply Z.eqb_neq. intros H'. apply Z.mul_cancel_r in H'; lia.
Qed.

Lemma find_day_in_range (g : Z -> Z) (first day : Z) (n : nat) :
  forall start : nat,
  find (fun p => fst p =? day * day_ns)
       (map (fun k => ((first + Z.of_nat k) * day_ns, g (first + Z.of_nat k)))
            (seq start n))
  = if (first + Z.of_nat start <=? day)
       && (day <? first + Z.of_nat start + Z.of_nat n)
    then Some (day * day_ns, g day) else None.
Proof.
  induction n as [|n IH]; intros start.
  - cbn [seq map find].
    destruct (first + Z.of_nat start <=? day) eqn:E1; cbn [andb];
      [|reflexivity].
    destruct (day <? first + Z.of_nat start + Z.of_nat 0) eqn:E2;
      [|reflexivity]. Zbool. lia.
  - cbn [seq map find fst]. rewrite day_label_eqb, IH.
    destruct (first + Z.of_nat start =? day) eqn:E0;
      destruct (first + Z.of_nat start <=? day) eqn:E1;
      destruct (first + Z.of_nat (S start) <=? day) eqn:E3;
      destruct (day <? first + Z.of_nat start + Z.of_nat (S n)) eqn:E2;
      destruct (day <? first + Z.of_nat (S start) + Z.of_nat n) eqn:E4;
      cbn [andb]; Zbool; try lia; try reflexivity.
    subst day. reflexivity.
Qed.

Lemma count_in_bin_outside {A : Type} (s : Series (option A)) (day : Z) :
  ~ In day (map (fun p => day_of (fst p)) s) -> count_in_bin s day = 0.
Proof.
  intros Hout. unfold count_in_bin.
  rewrite filter_all_false; [reflexivity|].
  intros p Hp. apply andb_false_iff. left. apply Z.eqb_neq.
  intros E. apply Hout. apply in_map_iff. exists p. now split.
Qed.

Lemma count_at_resample {A : Type} (s : Series (option A)) (day : Z) :
  count_at (resample_d_count s) (day * day_ns) = count_in_bin s day.
Proof.
  unfold count_at, resample_d_count.
  destruct (map (fun p => day_of (fst p)) s) as [|d ds] eqn:Hd.
  - cbn [find]. symmetry. apply count_in_bin_outside. rewrite Hd. intros [].
  - destruct (fold_right_min_spec d ds) as [_ Hmin].
    destruct (fold_right_max_spec d ds) as [_ Hmax].
    set (first := fold_right Z.min d ds) in *.
    set (last := fold_right Z.max d ds) in *.
    rewrite (find_day_in_range (count_in_bin s) first day _ 0).
    destruct (first + Z.of_nat 0 <=? day) eqn:E1;
      destruct (day <? first + Z.of_nat 0
                       + Z.of_nat (Z.to_nat (last - first + 1))) eqn:E2;
      cbn [andb snd]; try reflexivity;
      symmetry; apply count_in_bin_outside; rewrite Hd; intros Hin;
      pose proof (Hmin _ Hin); pose proof (Hmax _ Hin); Zbool; lia.
Qed.

Lemma sumZ_user_indicator (x : Z) (us : list Z) :
  NoDup us ->
  sumZ (map (fun u => if x =? u then 1 else 0) us)
  = if in_dec Z.eq_dec x us then 1 else 0.
Proof.
  induction 1 as [|u us Hu _ IH]; [reflexivity|].
  cbn [map sumZ fold_right].
  fold (sumZ (map (fun u => if x =? u then 1 else 0) us)).
  rewrite IH.
  destruct (in_dec Z.eq_dec x (u :: us)) as [Hin|Hout];
    destruct (in_dec Z.eq_dec x us) as [Hin'|Hout'];
    destruct (x =? u) eqn:E; Zbool;
    first [ lia | exfalso; cbn [In] in *; intuition congruence ].
Qed.

Lemma count_in_bin_cons {A : Type} (p : Z * option A) (s : Series (option A))
    (day : Z) :
  count_in_bin (p :: s) day
  = count_in_bin s day
    + (if (day_of (fst p) =? day) && notnull (snd p) then 1 else 0).
Proof.
  unfold count_in_bin. cbn [filter].
  destruct ((day_of (fst p) =? day) && notnull (snd p)); cbn [length]; lia.
Qed.

Lemma count_all_users (us : list Z) (day : Z) (df : list LogRow) :
  NoDup us ->
  (forall r, In r df -> In (user_id r) us) ->
  count_in_bin (map (fun r => (date r, endpoint r)) df) day
  = sumZ (map (fun u => views_on df u day) us).
Proof.
  intros Hnd. induction df as [|r df IH]; intros Hall.
  - cbn [map]. symmetry. apply sumZ_map_zero. reflexivity.
  - cbn [map]. rewrite count_in_bin_cons. cbn [fst snd].
    rewrite (map_ext _ (fun u =>
       views_on df u day
       + (if (user_id r =? u) && notnull (endpoint r)
          then (if day_of (date r) =? day then 1 else 0) else 0)))
      by (intros u; apply views_on_cons).
    rewrite sumZ_map_add, <- IH by (intros r' Hr'; apply Hall; now right).
    f_equal.
    destruct (notnull (endpoint r)); destruct (day_of (date r) =? day);
      cbn [andb].
    + rewrite (map_ext _ (fun u => if user_id r =? u then 1 else 0))
        by (intros u; destruct (user_id r =? u); reflexivity).
      rewrite sumZ_user_indicator by assumption.
      destruct (in_dec Z.eq_dec (user_id r) us) as [_|Hout]; [reflexivity|].
      exfalso. apply Hout, Hall. now left.
    + symmetry. apply sumZ_map_zero. intros u _.
      destruct (user_id r =? u); reflexivity.
    + symmetry. apply sumZ_map_zero. intros u _.
      rewrite andb_false_r. reflexivity.
    + symmetry. apply sumZ_map_zero. intros u _.
      rewrite andb_false_r. reflexivity.
Qed.

Lemma count_at_one_user (df : list LogRow) (user day : Z) :
  count_at (one_user_df_prep df user) (day * day_ns) = views_on df user day.
Proof.
  unfold one_user_df_prep. rewrite count_at_resample.
  apply count_in_bin_views.
Qed.

(** X18: on every day the count of the series of all users is the sum
    over the distinct users of the counts of their series that day (0
    where a series has no entry). *)
Theorem pages_is_sum_of_users (df : list LogRow) (day : Z) :
  count_at (pages df) (day * day_ns)
  = sumZ (map (fun u => count_at (one_user_df_prep df u) (day * day_ns))
            (unique (map user_id df))).
Proof.
  unfold pages. rewrite count_at_resample.
  rewrite (map_ext _ (fun u => views_on df u day))
    by (intros u; apply count_at_one_user).
  apply count_all_users; [apply unique_NoDup|].
  intros r Hr. apply unique_In, in_map. assumption.
Qed.

Close Scope Z_scope.

(** ** How far [pct_b] can lie from one half *)

Lemma inf_of_sign_not_Fin (x p : R) : inf_of_sign x <> Fin p.
Proof.
  unfold inf_of_sign. destruct (Rltb 0 x); [discriminate|].
  destruct (Rltb x 0); discriminate.
Qed.


(** ** Worked log with two users *)

Lemma level_log_counts : one_user_df_prep level_log 1 = level_counts.
Proof. vm_compute. reflexivity. Qed.

Lemma level_log_table (weight : R) :
  compute_pct_b (as_float (one_user_df_prep level_log 1)) 3 weight 1
  = Ok (level_rows weight 1).
Proof. rewrite level_log_counts. apply level_compute_pct_b. Qed.

Lemma level_log_other_user (weight : R) :
  find_anomalies level_log 2 3 weight = Ok [].
Proof.
  unfold find_anomalies.
  replace (one_user_df_prep level_log 2) with [((1 * day_ns)%Z, 1%Z)]
    by (vm_compute; reflexivity).
  unfold compute_pct_b, ewm_mean, ewm_std.
  rewrite get_center_of_mass_ok by lra. reflexivity.
Qed.

Lemma level_log_all_users :
  anomalies_all_users level_log 3 (1 / 4)
  = Ok [band_row (1 * day_ns) 4 (Fin 3) (Fin (sqrt (9 / 2))) (1 / 4) 1].
Proof.
  unfold anomalies_all_users.
  replace (unique (map user_id level_log)) with [2%Z; 1%Z]
    by (vm_compute; reflexivity).
  cbn [anomalies_loop]. rewrite level_log_other_user. cbn [bind app].
  unfold find_anomalies. rewrite level_log_table. cbn [bind].
  now rewrite level_quarter_reported.
Qed.

Lemma level_ewm_mean : ewm_mean 3 [1; 4; 3] = Ok [Fin 1; Fin 3; Fin 3].
Proof.
  unfold ewm_mean. rewrite get_center_of_mass_ok by lra. cbn [bind].
  now rewrite level_mean.
Qed.

Lemma level_ewm_std :
  ewm_std 3 [1; 4; 3] = Ok [NaN; Fin (sqrt (9 / 2)); Fin (sqrt (3 / 2))].
Proof.
  unfold ewm_std. rewrite get_center_of_mass_ok by lra. cbn [bind].
  now rewrite level_std.
Qed.




Lemma pct_b_negative_iff_below_lower_band_witness :
  flt (pct_b (band_row (1 * day_ns) 4 (Fin 3) (Fin (sqrt (9 / 2))) 3 1))
      (Fin 0) = true
  <-> exists l,
        lb (band_row (1 * day_ns) 4 (Fin 3) (Fin (sqrt (9 / 2))) 3 1) = Fin l
        /\ pages_one_user
             (band_row (1 * day_ns) 4 (Fin 3) (Fin (sqrt (9 / 2))) 3 1) < l.
Proof.
  apply (pct_b_negative_iff_below_lower_band level_series 3 3 1
           (level_rows 3 1)).
  - apply level_compute_pct_b.
  - right. left. reflexivity.
  - lra.
Defined.

Lemma all_users_concatenation_witness :
  anomalies_all_users level_log 3 (1 / 4)
    = Ok (flat_map (anomalies_of level_log 3 (1 / 4))
            (unique (map user_id level_log)))
  /\ NoDup (unique (map user_id level_log))
  /\ (forall u, In u (unique (map user_id level_log))
                <-> In u (map user_id level_log))
  /\ (forall u, find_anomalies level_log u 3 (1 / 4)
                = Ok (anomalies_of level_log 3 (1 / 4) u)).
Proof. apply (all_users_concatenation level_log 3 (1 / 4)). lra. Defined.

Lemma all_users_rows_witness :
  (exists l,
     In l level_log
     /\ user_id l
        = row_user_id
            (band_row (1 * day_ns) 4 (Fin 3) (Fin (sqrt (9 / 2))) (1 / 4) 1))
  /\ fgt (pct_b (band_row (1 * day_ns) 4 (Fin 3) (Fin (sqrt (9 / 2)))
                   (1 / 4) 1)) (Fin 1) = true
  /\ exists rows,
       find_anomalies level_log
         (row_user_id
            (band_row (1 * day_ns) 4 (Fin 3) (Fin (sqrt (9 / 2))) (1 / 4) 1))
         3 (1 / 4) = Ok rows
       /\ In (band_row (1 * day_ns) 4 (Fin 3) (Fin (sqrt (9 / 2))) (1 / 4) 1)
             rows.
Proof.
  apply (all_users_rows level_log 3 (1 / 4)
           [band_row (1 * day_ns) 4 (Fin 3) (Fin (sqrt (9 / 2))) (1 / 4) 1]).
  - apply level_log_all_users.
  - left. reflexivity.
Defined.

Lemma all_users_invalid_span_witness :
  (gap_log = [] -> anomalies_all_users gap_log 0 3 = Ok [])
  /\ (gap_log <> [] -> anomalies_all_users gap_log 0 3 = ValueError).
Proof. apply (all_users_invalid_span gap_log 0 3). lra. Defined.

Lemma all_users_wide_band_nothing_witness :
  anomalies_all_users level_log 30 6 = Ok [].
Proof. apply (all_users_wide_band_nothing level_log 30 6); lra. Defined.


